(** * Real-time activity monitors of datagenesis: normalization, classification,
      bounded log, pause gate, status poller and filter projection.

    The development embeds the four monitor components
      - [Unified]  : src/components/unified/UnifiedRealTimeMonitor.tsx
      - [Simple]   : SimpleRealTimeMonitor
      - [RealTime] : RealTimeMonitor
      - [Enhanced] : src/components/EnhancedRealTimeMonitor.tsx (filter only)
    over a small model of the JavaScript values they manipulate: strings as
    lists of UTF-16 code units, numbers as [Z], optional fields as [option],
    arrays as lists, regular expressions as an abstract syntax run by a
    backtracking matcher. *)

From Stdlib Require Import String Ascii ZArith NArith Bool List Lia.
Import ListNotations.

Set Implicit Arguments.

(* ===================================================================== *)
(** ** JavaScript strings and the String / Array methods the monitors use *)
(* ===================================================================== *)

Module Js.

(** A JavaScript string is a sequence of UTF-16 code units. *)
Definition jsstring := list N.

(** The sources are UTF-8 text: a literal of the source denotes the UTF-16
    encoding of the code points its bytes spell. *)
Fixpoint utf16_of_utf8 (bs : list N) : jsstring :=
  let cont b := N.land b 63 in
  let units cp :=
    if (cp <? 65536)%N then [cp]
    else [(55296 + N.shiftr (cp - 65536) 10)%N;
          (56320 + N.land (cp - 65536) 1023)%N] in
  match bs with
  | [] => []
  | b0 :: t0 =>
    if (b0 <? 128)%N then b0 :: utf16_of_utf8 t0
    else match t0 with
    | [] => [65533%N]
    | b1 :: t1 =>
      if (b0 <? 224)%N
      then units (N.lor (N.shiftl (N.land b0 31) 6) (cont b1))
           ++ utf16_of_utf8 t1
      else match t1 with
      | [] => [65533%N]
      | b2 :: t2 =>
        if (b0 <? 240)%N
        then units (N.lor (N.shiftl (N.land b0 15) 12)
                      (N.lor (N.shiftl (cont b1) 6) (cont b2)))
             ++ utf16_of_utf8 t2
        else match t2 with
        | [] => [65533%N]
        | b3 :: t3 =>
          units (N.lor (N.shiftl (N.land b0 7) 18)
                   (N.lor (N.shiftl (cont b1) 12)
                      (N.lor (N.shiftl (cont b2) 6) (cont b3))))
          ++ utf16_of_utf8 t3
        end
      end
    end
  end.

Definition js (s : string) : jsstring :=
  utf16_of_utf8 (map N_of_ascii (list_ascii_of_string s)).

(** [===] on strings. *)
Fixpoint str_eqb (a b : jsstring) : bool :=
  match a, b with
  | [], [] => true
  | x :: a', y :: b' => N.eqb x y && str_eqb a' b'
  | _, _ => false
  end.

(** [x === lit] where [x] may be undefined. *)
Definition opt_is (x : option jsstring) (lit : jsstring) : bool :=
  match x with Some s => str_eqb s lit | None => false end.

(** Truthiness of an optional string: undefined and the empty string are
    falsy. *)
Definition truthy (x : option jsstring) : bool :=
  match x with Some (_ :: _) => true | _ => false end.

(** [x || d] on an optional string. *)
Definition or_else (x : option jsstring) (d : jsstring) : jsstring :=
  match x with Some (c :: s) => c :: s | _ => d end.

(** [x || y] where both may be undefined. *)
Definition or_opt (x y : option jsstring) : option jsstring :=
  if truthy x then x else y.

(** Lower-casing of one code unit as the [i] flag of a pattern without the
    [u] flag folds the letters A-Z. *)
Definition lower_unit (c : N) : N :=
  if ((65 <=? c) && (c <=? 90))%N then (c + 32)%N else c.

(** *** [String.prototype.toLowerCase]

    The method maps the string code point by code point with the lower-case
    mappings of the Unicode Character Database (here those of Unicode 14.0),
    independently of the locale: every code point has a simple mapping,
    except U+0130, which becomes U+0069 U+0307, and the capital sigma U+03A3,
    which becomes the final sigma U+03C2 when it ends a word and U+03C3
    otherwise. *)

Local Open Scope N_scope.

Definition isHighSurrogate (c : N) : bool := (55296 <=? c) && (c <=? 56319).
Definition isLowSurrogate (c : N) : bool := (56320 <=? c) && (c <=? 57343).

(** The code points of a string; a surrogate without its partner stands for
    itself. *)
Fixpoint codePoints (s : jsstring) : list N :=
  match s with
  | [] => []
  | h :: t =>
    match t with
    | l :: s' =>
      if isHighSurrogate h && isLowSurrogate l
      then (65536 + (h - 55296) * 1024 + (l - 56320)) :: codePoints s'
      else h :: codePoints t
    | [] => [h]
    end
  end.

Definition codeUnits (cp : N) : jsstring :=
  if cp <? 65536 then [cp]
  else [55296 + (cp - 65536) / 1024; 56320 + (cp - 65536) mod 1024].

(** The simple lower-case mappings, in ascending order: an entry
    [(first, last, step, target)] maps [first + k * step <= last] to
    [target + k * step]. *)
Definition lowerMappingsAbove : list (N * N * N * N) :=
  [
   (256, 302, 2, 257); (306, 310, 2, 307); (313, 327, 2, 314);
   (330, 374, 2, 331); (376, 376, 1, 255); (377, 381, 2, 378);
   (385, 385, 1, 595); (386, 388, 2, 387); (390, 390, 1, 596);
   (391, 391, 1, 392); (393, 394, 1, 598); (395, 395, 1, 396);
   (398, 398, 1, 477); (399, 399, 1, 601); (400, 400, 1, 603);
   (401, 401, 1, 402); (403, 403, 1, 608); (404, 404, 1, 611);
   (406, 406, 1, 617); (407, 407, 1, 616); (408, 408, 1, 409);
   (412, 412, 1, 623); (413, 413, 1, 626); (415, 415, 1, 629);
   (416, 420, 2, 417); (422, 422, 1, 640); (423, 423, 1, 424);
   (425, 425, 1, 643); (428, 428, 1, 429); (430, 430, 1, 648);
   (431, 431, 1, 432); (433, 434, 1, 650); (435, 437, 2, 436);
   (439, 439, 1, 658); (440, 440, 1, 441); (444, 444, 1, 445);
   (452, 452, 1, 454); (453, 453, 1, 454); (455, 455, 1, 457);
   (456, 456, 1, 457); (458, 458, 1, 460); (459, 475, 2, 460);
   (478, 494, 2, 479); (497, 497, 1, 499); (498, 500, 2, 499);
   (502, 502, 1, 405); (503, 503, 1, 447); (504, 542, 2, 505);
   (544, 544, 1, 414); (546, 562, 2, 547); (570, 570, 1, 11365);
   (571, 571, 1, 572); (573, 573, 1, 410); (574, 574, 1, 11366);
   (577, 577, 1, 578); (579, 579, 1, 384); (580, 580, 1, 649);
   (581, 581, 1, 652); (582, 590, 2, 583); (880, 882, 2, 881);
   (886, 886, 1, 887); (895, 895, 1, 1011); (902, 902, 1, 940);
   (904, 906, 1, 941); (908, 908, 1, 972); (910, 911, 1, 973);
   (913, 929, 1, 945); (931, 939, 1, 963); (975, 975, 1, 983);
   (984, 1006, 2, 985); (1012, 1012, 1, 952); (1015, 1015, 1, 1016);
   (1017, 1017, 1, 1010); (1018, 1018, 1, 1019); (1021, 1023, 1, 891);
   (1024, 1039, 1, 1104); (1040, 1071, 1, 1072); (1120, 1152, 2, 1121);
   (1162, 1214, 2, 1163); (1216, 1216, 1, 1231); (1217, 1229, 2, 1218);
   (1232, 1326, 2, 1233); (1329, 1366, 1, 1377); (4256, 4293, 1, 11520);
   (4295, 4295, 1, 11559); (4301, 4301, 1, 11565); (5024, 5103, 1, 43888);
   (5104, 5109, 1, 5112); (7312, 7354, 1, 4304); (7357, 7359, 1, 4349);
   (7680, 7828, 2, 7681); (7838, 7838, 1, 223); (7840, 7934, 2, 7841);
   (7944, 7951, 1, 7936); (7960, 7965, 1, 7952); (7976, 7983, 1, 7968);
   (7992, 7999, 1, 7984); (8008, 8013, 1, 8000); (8025, 8031, 2, 8017);
   (8040, 8047, 1, 8032); (8072, 8079, 1, 8064); (8088, 8095, 1, 8080);
   (8104, 8111, 1, 8096); (8120, 8121, 1, 8112); (8122, 8123, 1, 8048);
   (8124, 8124, 1, 8115); (8136, 8139, 1, 8050); (8140, 8140, 1, 8131);
   (8152, 8153, 1, 8144); (8154, 8155, 1, 8054); (8168, 8169, 1, 8160);
   (8170, 8171, 1, 8058); (8172, 8172, 1, 8165); (8184, 8185, 1, 8056);
   (8186, 8187, 1, 8060); (8188, 8188, 1, 8179); (8486, 8486, 1, 969);
   (8490, 8490, 1, 107); (8491, 8491, 1, 229); (8498, 8498, 1, 8526);
   (8544, 8559, 1, 8560); (8579, 8579, 1, 8580); (9398, 9423, 1, 9424);
   (11264, 11311, 1, 11312); (11360, 11360, 1, 11361); (11362, 11362, 1, 619);
   (11363, 11363, 1, 7549); (11364, 11364, 1, 637); (11367, 11371, 2, 11368);
   (11373, 11373, 1, 593); (11374, 11374, 1, 625); (11375, 11375, 1, 592);
   (11376, 11376, 1, 594); (11378, 11378, 1, 11379); (11381, 11381, 1, 11382);
   (11390, 11391, 1, 575); (11392, 11490, 2, 11393); (11499, 11501, 2, 11500);
   (11506, 11506, 1, 11507); (42560, 42604, 2, 42561); (42624, 42650, 2, 42625);
   (42786, 42798, 2, 42787); (42802, 42862, 2, 42803); (42873, 42875, 2, 42874);
   (42877, 42877, 1, 7545); (42878, 42886, 2, 42879); (42891, 42891, 1, 42892);
   (42893, 42893, 1, 613); (42896, 42898, 2, 42897); (42902, 42920, 2, 42903);
   (42922, 42922, 1, 614); (42923, 42923, 1, 604); (42924, 42924, 1, 609);
   (42925, 42925, 1, 620); (42926, 42926, 1, 618); (42928, 42928, 1, 670);
   (42929, 42929, 1, 647); (42930, 42930, 1, 669); (42931, 42931, 1, 43859);
   (42932, 42946, 2, 42933); (42948, 42948, 1, 42900); (42949, 42949, 1, 642);
   (42950, 42950, 1, 7566); (42951, 42953, 2, 42952); (42960, 42960, 1, 42961);
   (42966, 42968, 2, 42967); (42997, 42997, 1, 42998); (65313, 65338, 1, 65345);
   (66560, 66599, 1, 66600); (66736, 66771, 1, 66776); (66928, 66938, 1, 66967);
   (66940, 66954, 1, 66979); (66956, 66962, 1, 66995); (66964, 66965, 1, 67003);
   (68736, 68786, 1, 68800); (71840, 71871, 1, 71872); (93760, 93791, 1, 93792);
   (125184, 125217, 1, 125218)
 ].

Definition lowerMappings : list (N * N * N * N) :=
  (65, 90, 1, 97) :: (192, 214, 1, 224) :: (216, 222, 1, 248)
  :: lowerMappingsAbove.

Fixpoint simpleLower (table : list (N * N * N * N)) (c : N) : N :=
  match table with
  | [] => c
  | (first, last, step, target) :: rest =>
    if c <? first then c
    else if c <=? last
    then if (c - first) mod step =? 0 then target + (c - first) else c
    else simpleLower rest c
  end.

Definition lowerPoint (c : N) : list N :=
  if c =? 304 then [105; 775] else [simpleLower lowerMappings c].

(** The ranges of the code points with the property Case_Ignorable. *)
Definition caseIgnorableRanges : list (N * N) :=
  [
   (39, 39); (46, 46); (58, 58); (94, 94); (96, 96);
   (168, 168); (173, 173); (175, 175); (180, 180); (183, 184);
   (688, 879); (884, 885); (890, 890); (900, 901); (903, 903);
   (1155, 1161); (1369, 1369); (1375, 1375); (1425, 1469); (1471, 1471);
   (1473, 1474); (1476, 1477); (1479, 1479); (1524, 1524); (1536, 1541);
   (1552, 1562); (1564, 1564); (1600, 1600); (1611, 1631); (1648, 1648);
   (1750, 1757); (1759, 1768); (1770, 1773); (1807, 1807); (1809, 1809);
   (1840, 1866); (1958, 1968); (2027, 2037); (2042, 2042); (2045, 2045);
   (2070, 2093); (2137, 2139); (2184, 2184); (2192, 2193); (2200, 2207);
   (2249, 2306); (2362, 2362); (2364, 2364); (2369, 2376); (2381, 2381);
   (2385, 2391); (2402, 2403); (2417, 2417); (2433, 2433); (2492, 2492);
   (2497, 2500); (2509, 2509); (2530, 2531); (2558, 2558); (2561, 2562);
   (2620, 2620); (2625, 2626); (2631, 2632); (2635, 2637); (2641, 2641);
   (2672, 2673); (2677, 2677); (2689, 2690); (2748, 2748); (2753, 2757);
   (2759, 2760); (2765, 2765); (2786, 2787); (2810, 2815); (2817, 2817);
   (2876, 2876); (2879, 2879); (2881, 2884); (2893, 2893); (2901, 2902);
   (2914, 2915); (2946, 2946); (3008, 3008); (3021, 3021); (3072, 3072);
   (3076, 3076); (3132, 3132); (3134, 3136); (3142, 3144); (3146, 3149);
   (3157, 3158); (3170, 3171); (3201, 3201); (3260, 3260); (3263, 3263);
   (3270, 3270); (3276, 3277); (3298, 3299); (3328, 3329); (3387, 3388);
   (3393, 3396); (3405, 3405); (3426, 3427); (3457, 3457); (3530, 3530);
   (3538, 3540); (3542, 3542); (3633, 3633); (3636, 3642); (3654, 3662);
   (3761, 3761); (3764, 3772); (3782, 3782); (3784, 3789); (3864, 3865);
   (3893, 3893); (3895, 3895); (3897, 3897); (3953, 3966); (3968, 3972);
   (3974, 3975); (3981, 3991); (3993, 4028); (4038, 4038); (4141, 4144);
   (4146, 4151); (4153, 4154); (4157, 4158); (4184, 4185); (4190, 4192);
   (4209, 4212); (4226, 4226); (4229, 4230); (4237, 4237); (4253, 4253);
   (4348, 4348); (4957, 4959); (5906, 5908); (5938, 5939); (5970, 5971);
   (6002, 6003); (6068, 6069); (6071, 6077); (6086, 6086); (6089, 6099);
   (6103, 6103); (6109, 6109); (6155, 6159); (6211, 6211); (6277, 6278);
   (6313, 6313); (6432, 6434); (6439, 6440); (6450, 6450); (6457, 6459);
   (6679, 6680); (6683, 6683); (6742, 6742); (6744, 6750); (6752, 6752);
   (6754, 6754); (6757, 6764); (6771, 6780); (6783, 6783); (6823, 6823);
   (6832, 6862); (6912, 6915); (6964, 6964); (6966, 6970); (6972, 6972);
   (6978, 6978); (7019, 7027); (7040, 7041); (7074, 7077); (7080, 7081);
   (7083, 7085); (7142, 7142); (7144, 7145); (7149, 7149); (7151, 7153);
   (7212, 7219); (7222, 7223); (7288, 7293); (7376, 7378); (7380, 7392);
   (7394, 7400); (7405, 7405); (7412, 7412); (7416, 7417); (7468, 7530);
   (7544, 7544); (7579, 7679); (8125, 8125); (8127, 8129); (8141, 8143);
   (8157, 8159); (8173, 8175); (8189, 8190); (8203, 8207); (8216, 8217);
   (8228, 8228); (8231, 8231); (8234, 8238); (8288, 8292); (8294, 8303);
   (8305, 8305); (8319, 8319); (8336, 8348); (8400, 8432); (11388, 11389);
   (11503, 11505); (11631, 11631); (11647, 11647); (11744, 11775); (11823, 11823);
   (12293, 12293); (12330, 12333); (12337, 12341); (12347, 12347); (12441, 12446);
   (12540, 12542); (40981, 40981); (42232, 42237); (42508, 42508); (42607, 42610);
   (42612, 42621); (42623, 42623); (42652, 42655); (42736, 42737); (42752, 42785);
   (42864, 42864); (42888, 42890); (42994, 42996); (43000, 43001); (43010, 43010);
   (43014, 43014); (43019, 43019); (43045, 43046); (43052, 43052); (43204, 43205);
   (43232, 43249); (43263, 43263); (43302, 43309); (43335, 43345); (43392, 43394);
   (43443, 43443); (43446, 43449); (43452, 43453); (43471, 43471); (43493, 43494);
   (43561, 43566); (43569, 43570); (43573, 43574); (43587, 43587); (43596, 43596);
   (43632, 43632); (43644, 43644); (43696, 43696); (43698, 43700); (43703, 43704);
   (43710, 43711); (43713, 43713); (43741, 43741); (43756, 43757); (43763, 43764);
   (43766, 43766); (43867, 43871); (43881, 43883); (44005, 44005); (44008, 44008);
   (44013, 44013); (64286, 64286); (64434, 64450); (65024, 65039); (65043, 65043);
   (65056, 65071); (65106, 65106); (65109, 65109); (65279, 65279); (65287, 65287);
   (65294, 65294); (65306, 65306); (65342, 65342); (65344, 65344); (65392, 65392);
   (65438, 65439); (65507, 65507); (65529, 65531); (66045, 66045); (66272, 66272);
   (66422, 66426); (67456, 67461); (67463, 67504); (67506, 67514); (68097, 68099);
   (68101, 68102); (68108, 68111); (68152, 68154); (68159, 68159); (68325, 68326);
   (68900, 68903); (69291, 69292); (69446, 69456); (69506, 69509); (69633, 69633);
   (69688, 69702); (69744, 69744); (69747, 69748); (69759, 69761); (69811, 69814);
   (69817, 69818); (69821, 69821); (69826, 69826); (69837, 69837); (69888, 69890);
   (69927, 69931); (69933, 69940); (70003, 70003); (70016, 70017); (70070, 70078);
   (70089, 70092); (70095, 70095); (70191, 70193); (70196, 70196); (70198, 70199);
   (70206, 70206); (70367, 70367); (70371, 70378); (70400, 70401); (70459, 70460);
   (70464, 70464); (70502, 70508); (70512, 70516); (70712, 70719); (70722, 70724);
   (70726, 70726); (70750, 70750); (70835, 70840); (70842, 70842); (70847, 70848);
   (70850, 70851); (71090, 71093); (71100, 71101); (71103, 71104); (71132, 71133);
   (71219, 71226); (71229, 71229); (71231, 71232); (71339, 71339); (71341, 71341);
   (71344, 71349); (71351, 71351); (71453, 71455); (71458, 71461); (71463, 71467);
   (71727, 71735); (71737, 71738); (71995, 71996); (71998, 71998); (72003, 72003);
   (72148, 72151); (72154, 72155); (72160, 72160); (72193, 72202); (72243, 72248);
   (72251, 72254); (72263, 72263); (72273, 72278); (72281, 72283); (72330, 72342);
   (72344, 72345); (72752, 72758); (72760, 72765); (72767, 72767); (72850, 72871);
   (72874, 72880); (72882, 72883); (72885, 72886); (73009, 73014); (73018, 73018);
   (73020, 73021); (73023, 73029); (73031, 73031); (73104, 73105); (73109, 73109);
   (73111, 73111); (73459, 73460); (78896, 78904); (92912, 92916); (92976, 92982);
   (92992, 92995); (94031, 94031); (94095, 94111); (94176, 94177); (94179, 94180);
   (110576, 110579); (110581, 110587); (110589, 110590); (113821, 113822); (113824, 113827);
   (118528, 118573); (118576, 118598); (119143, 119145); (119155, 119170); (119173, 119179);
   (119210, 119213); (119362, 119364); (121344, 121398); (121403, 121452); (121461, 121461);
   (121476, 121476); (121499, 121503); (121505, 121519); (122880, 122886); (122888, 122904);
   (122907, 122913); (122915, 122916); (122918, 122922); (123184, 123197); (123566, 123566);
   (123628, 123631); (125136, 125142); (125252, 125259); (127995, 127999); (917505, 917505);
   (917536, 917631); (917760, 917999)
 ].

(** The ranges of the code points with the property Cased that are not
    Case_Ignorable. *)
Definition casedRanges : list (N * N) :=
  [
   (65, 90); (97, 122); (170, 170); (181, 181); (186, 186);
   (192, 214); (216, 246); (248, 442); (444, 447); (452, 659);
   (661, 687); (880, 883); (886, 887); (891, 893); (895, 895);
   (902, 902); (904, 906); (908, 908); (910, 929); (931, 1013);
   (1015, 1153); (1162, 1327); (1329, 1366); (1376, 1416); (4256, 4293);
   (4295, 4295); (4301, 4301); (4304, 4346); (4349, 4351); (5024, 5109);
   (5112, 5117); (7296, 7304); (7312, 7354); (7357, 7359); (7424, 7467);
   (7531, 7543); (7545, 7578); (7680, 7957); (7960, 7965); (7968, 8005);
   (8008, 8013); (8016, 8023); (8025, 8025); (8027, 8027); (8029, 8029);
   (8031, 8061); (8064, 8116); (8118, 8124); (8126, 8126); (8130, 8132);
   (8134, 8140); (8144, 8147); (8150, 8155); (8160, 8172); (8178, 8180);
   (8182, 8188); (8450, 8450); (8455, 8455); (8458, 8467); (8469, 8469);
   (8473, 8477); (8484, 8484); (8486, 8486); (8488, 8488); (8490, 8493);
   (8495, 8500); (8505, 8505); (8508, 8511); (8517, 8521); (8526, 8526);
   (8544, 8575); (8579, 8580); (9398, 9449); (11264, 11387); (11390, 11492);
   (11499, 11502); (11506, 11507); (11520, 11557); (11559, 11559); (11565, 11565);
   (42560, 42605); (42624, 42651); (42786, 42863); (42865, 42887); (42891, 42894);
   (42896, 42954); (42960, 42961); (42963, 42963); (42965, 42969); (42997, 42998);
   (43002, 43002); (43824, 43866); (43872, 43880); (43888, 43967); (64256, 64262);
   (64275, 64279); (65313, 65338); (65345, 65370); (66560, 66639); (66736, 66771);
   (66776, 66811); (66928, 66938); (66940, 66954); (66956, 66962); (66964, 66965);
   (66967, 66977); (66979, 66993); (66995, 67001); (67003, 67004); (68736, 68786);
   (68800, 68850); (71840, 71903); (93760, 93823); (119808, 119892); (119894, 119964);
   (119966, 119967); (119970, 119970); (119973, 119974); (119977, 119980); (119982, 119993);
   (119995, 119995); (119997, 120003); (120005, 120069); (120071, 120074); (120077, 120084);
   (120086, 120092); (120094, 120121); (120123, 120126); (120128, 120132); (120134, 120134);
   (120138, 120144); (120146, 120485); (120488, 120512); (120514, 120538); (120540, 120570);
   (120572, 120596); (120598, 120628); (120630, 120654); (120656, 120686); (120688, 120712);
   (120714, 120744); (120746, 120770); (120772, 120779); (122624, 122633); (122635, 122654);
   (125184, 125251); (127280, 127305); (127312, 127337); (127344, 127369)
 ].

Definition inRanges (table : list (N * N)) (c : N) : bool :=
  existsb (fun r => (fst r <=? c) && (c <=? snd r)) table.

(** Going through [l], is the first code point that is not case-ignorable a
    cased one? *)
Fixpoint reachesCased (l : list N) : bool :=
  match l with
  | [] => false
  | c :: l' =>
    if inRanges caseIgnorableRanges c then reachesCased l'
    else inRanges casedRanges c
  end.

(** The condition Final_Sigma: a cased letter before (case-ignorable code
    points aside), none after.  [before] is the text before the sigma,
    nearest code point first. *)
Definition finalSigma (before after : list N) : bool :=
  reachesCased before && negb (reachesCased after).

Fixpoint lowerFrom (before l : list N) : list N :=
  match l with
  | [] => []
  | c :: l' =>
    (if c =? 931
     then [if finalSigma before l' then 962 else 963]
     else lowerPoint c)
    ++ lowerFrom (c :: before) l'
  end.

Local Close Scope N_scope.

Definition toLowerCase (s : jsstring) : jsstring :=
  flat_map codeUnits (lowerFrom [] (codePoints s)).

(** [x?.toLowerCase() || ''] *)
Definition lower_or_empty (x : option jsstring) : jsstring :=
  match x with Some s => toLowerCase s | None => [] end.

(** WhiteSpace and LineTerminator code units: the class [\s] of regular
    expressions and the units [trim] strips. *)
Definition isSpace (c : N) : bool :=
  ((9 <=? c) && (c <=? 13) || (c =? 32) || (c =? 160) || (c =? 5760)
   || (8192 <=? c) && (c <=? 8202) || (c =? 8232) || (c =? 8233)
   || (c =? 8239) || (c =? 8287) || (c =? 12288) || (c =? 65279))%N.

Fixpoint trimStart (s : jsstring) : jsstring :=
  match s with
  | c :: s' => if isSpace c then trimStart s' else s
  | [] => []
  end.

Definition trim (s : jsstring) : jsstring :=
  rev (trimStart (rev (trimStart s))).

Fixpoint startsWith (s sub : jsstring) {struct sub} : bool :=
  match sub, s with
  | [], _ => true
  | y :: sub', x :: s' => N.eqb x y && startsWith s' sub'
  | _ :: _, [] => false
  end.

(** [s.includes(sub)] *)
Fixpoint includes (s sub : jsstring) : bool :=
  startsWith s sub ||
  match s with
  | [] => false
  | _ :: s' => includes s' sub
  end.

Definition isDigit (c : N) : bool := ((48 <=? c) && (c <=? 57))%N.

(** [parseInt(s)] without a radix argument: leading white space, a sign, an
    optional [0x] prefix, then the longest run of digits of the radix; [None]
    is NaN.  Values are exact integers: the rounding of the language beyond
    2^53 is not modelled. *)
Fixpoint parseDigits (acc : Z) (s : jsstring) : Z :=
  match s with
  | c :: s' =>
    if isDigit c then parseDigits (10 * acc + Z.of_N (c - 48)) s' else acc
  | [] => acc
  end.

Definition hexValue (c : N) : option Z :=
  if isDigit c then Some (Z.of_N (c - 48))
  else if ((97 <=? c) && (c <=? 102))%N then Some (Z.of_N (c - 87))
  else if ((65 <=? c) && (c <=? 70))%N then Some (Z.of_N (c - 55))
  else None.

Fixpoint parseHexDigits (acc : Z) (s : jsstring) : Z :=
  match s with
  | c :: s' =>
    match hexValue c with
    | Some v => parseHexDigits (16 * acc + v) s'
    | None => acc
    end
  | [] => acc
  end.

Definition parseUnsigned (s : jsstring) : option Z :=
  match s with
  | 48%N :: x :: h :: s' =>
    if ((x =? 120) || (x =? 88))%N
    then match hexValue h with
         | Some _ => Some (parseHexDigits 0 (h :: s'))
         | None => None
         end
    else Some (parseDigits 0 s)
  | [48%N; x] =>
    if ((x =? 120) || (x =? 88))%N then None else Some (parseDigits 0 s)
  | c :: _ => if isDigit c then Some (parseDigits 0 s) else None
  | [] => None
  end.

Definition parseInt (s : jsstring) : option Z :=
  match trimStart s with
  | 45%N :: body => option_map Z.opp (parseUnsigned body)
  | 43%N :: body => parseUnsigned body
  | body => parseUnsigned body
  end.

(** [a.slice(start, end)] of Array.prototype, negative indices counting
    from the end. *)
Definition clampIndex (len i : Z) : Z :=
  if (i <? 0)%Z then Z.max (len + i) 0 else Z.min i len.

Definition slice {A : Type} (a : list A) (start end_ : Z) : list A :=
  let len := Z.of_nat (length a) in
  let k := clampIndex len start in
  let final := clampIndex len end_ in
  firstn (Z.to_nat (final - k)) (skipn (Z.to_nat k) a).

End Js.

Import Js.

(* ===================================================================== *)
(** ** Regular expressions: syntax and backtracking matcher                *)
(* ===================================================================== *)

Module Regex.

(** The fragment of the pattern language the monitors' literals use. *)
Inductive regex : Type :=
| Empty
| Class (p : N -> bool)          (* one code unit: literal, ., \d, \s, [...] *)
| Seq (r1 r2 : regex)
| Alt (r1 r2 : regex)            (* r1|r2, left alternative first *)
| Star (r : regex)               (* r*, greedy *)
| Group (i : nat) (r : regex).   (* i-th capturing parenthesis *)

Definition Plus (r : regex) : regex := Seq r (Star r).

(** Captures, most recent binding first. *)
Definition captures := list (nat * jsstring).

Fixpoint capture (c : captures) (i : nat) : option jsstring :=
  match c with
  | [] => None
  | (j, s) :: c' => if Nat.eqb i j then Some s else capture c' i
  end.

(** A matcher takes the input, the captures so far and a continuation for
    the rest of the pattern. *)
Definition matcher (R : Type) : Type :=
  jsstring -> captures -> (jsstring -> captures -> option R) -> option R.

(** Greedy iteration of [body]: one more round first, the continuation when
    no round leads to a match.  A round must consume input, so [length s]
    rounds exhaust the input [s]. *)
Fixpoint star_loop (R : Type) (body : matcher R)
         (k : jsstring -> captures -> option R)
         (fuel : nat) (s : jsstring) (c : captures) : option R :=
  match fuel with
  | O => k s c
  | S fuel' =>
    match body s c
               (fun s1 c1 =>
                  if (length s1 <? length s)%nat
                  then star_loop body k fuel' s1 c1 else None) with
    | Some m => Some m
    | None => k s c
    end
  end.

(** [rmatch r s c k]: match [r] at the head of [s], then continue with [k]
    on the rest; the first success in backtracking order wins. *)
Fixpoint rmatch (R : Type) (r : regex) (s : jsstring) (c : captures)
         (k : jsstring -> captures -> option R) {struct r} : option R :=
  match r with
  | Empty => k s c
  | Class p =>
    match s with
    | x :: s' => if p x then k s' c else None
    | [] => None
    end
  | Seq r1 r2 => rmatch r1 s c (fun s1 c1 => rmatch r2 s1 c1 k)
  | Alt r1 r2 =>
    match rmatch r1 s c k with
    | Some m => Some m
    | None => rmatch r2 s c k
    end
  | Star r1 =>
    star_loop (fun s0 c0 k0 => rmatch r1 s0 c0 k0) k (length s) s c
  | Group i r1 =>
    rmatch r1 s c
           (fun s1 c1 => k s1 ((i, firstn (length s - length s1) s) :: c1))
  end.

(** The words of a pattern: what it can match, whatever the order in which
    the matcher tries the alternatives. *)
Inductive Lang : regex -> jsstring -> Prop :=
| L_empty : Lang Empty []
| L_class p x : p x = true -> Lang (Class p) [x]
| L_seq r1 r2 s1 s2 : Lang r1 s1 -> Lang r2 s2 -> Lang (Seq r1 r2) (s1 ++ s2)
| L_alt_l r1 r2 s : Lang r1 s -> Lang (Alt r1 r2) s
| L_alt_r r1 r2 s : Lang r2 s -> Lang (Alt r1 r2) s
| L_star_nil r : Lang (Star r) []
| L_star_more r s1 s2 : Lang r s1 -> Lang (Star r) s2 ->
                        Lang (Star r) (s1 ++ s2)
| L_group i r s : Lang r s -> Lang (Group i r) s.

(** Some contiguous part of [s] is a word of [r]. *)
Definition Occurs (r : regex) (s : jsstring) : Prop :=
  exists pre w post, s = pre ++ w ++ post /\ Lang r w.

(** The array [String.prototype.match] returns for a pattern without the
    [g] flag: index 0 is the matched text, index i the i-th group. *)
Record match_array : Type := MatchArray {
  whole : jsstring;
  groups : captures
}.

Definition nth_group (m : match_array) (i : nat) : option jsstring :=
  match i with
  | O => Some (whole m)
  | _ => capture (groups m) i
  end.

(** [m[i] !== undefined]: the group took part in the match. *)
Definition defined (m : match_array) (i : nat) : bool :=
  match nth_group m i with Some _ => true | None => false end.

(** The text of a group that took part in the match; [''] stands for a
    missing one where the code only tests the group or hands it on. *)
Definition group (m : match_array) (i : nat) : jsstring :=
  match nth_group m i with Some s => s | None => [] end.

Definition match_here (r : regex) (s : jsstring) : option match_array :=
  rmatch r s []
         (fun rest c =>
            Some (MatchArray (firstn (length s - length rest) s) c)).

(** [s.match(r)]: the leftmost start offset at which [r] matches. *)
Fixpoint match_ (r : regex) (s : jsstring) : option match_array :=
  match match_here r s with
  | Some m => Some m
  | None =>
    match s with
    | [] => None
    | _ :: s' => match_ r s'
    end
  end.

(** Atoms. *)
Definition chr (c : N) : regex := Class (N.eqb c).
(** A literal unit under the [i] flag. *)
Definition chri (c : N) : regex :=
  Class (fun x => N.eqb (lower_unit x) (lower_unit c)).

Fixpoint lit (s : jsstring) : regex :=
  match s with
  | [] => Empty
  | [c] => chr c
  | c :: s' => Seq (chr c) (lit s')
  end.

Fixpoint liti (s : jsstring) : regex :=
  match s with
  | [] => Empty
  | [c] => chri c
  | c :: s' => Seq (chri c) (liti s')
  end.

Definition isLineTerminator (c : N) : bool :=
  ((c =? 10) || (c =? 13) || (c =? 8232) || (c =? 8233))%N.

Definition isWord (c : N) : bool :=
  ((48 <=? c) && (c <=? 57) || (65 <=? c) && (c <=? 90)
   || (97 <=? c) && (c <=? 122) || (c =? 95))%N.

Definition dot : regex := Class (fun c => negb (isLineTerminator c)).
Definition digit : regex := Class isDigit.
Definition space : regex := Class isSpace.
Definition notColon : regex := Class (fun c => negb (N.eqb c 58)).

Fixpoint alts (rs : list regex) : regex :=
  match rs with
  | [] => Class (fun _ => false)
  | [r] => r
  | r :: rs' => Alt r (alts rs')
  end.

Fixpoint seqs (rs : list regex) : regex :=
  match rs with
  | [] => Empty
  | [r] => r
  | r :: rs' => Seq r (seqs rs')
  end.

(** The scan loop of the monitors, [for (... of patterns)] with a [break]
    at the first entry whose pattern matches. *)
Fixpoint firstMatch (K : Type) (table : list (K * regex))
         (message : jsstring) : option (K * match_array) :=
  match table with
  | [] => None
  | (key, pattern) :: rest =>
    match match_ pattern message with
    | Some m => Some (key, m)
    | None => firstMatch rest message
    end
  end.

End Regex.

Import Regex.

Local Open Scope string_scope.
Local Open Scope Z_scope.

(* ===================================================================== *)
(** ** Inbound events                                                      *)
(* ===================================================================== *)

Module Wire.

(** The object [logData]: either the [data] of a structured event or the
    fields a pattern extracted.  Fields are typed as the inbound envelope
    declares them; an absent field is [None]. *)
Record LogData : Type := mkLogData {
  ld_message : option jsstring;
  ld_step : option jsstring;
  ld_progress : option Z;
  ld_agent : option jsstring;
  ld_status : option jsstring;
  ld_level : option jsstring;
  ld_type : option jsstring;
  ld_details : option jsstring;
  ld_emoji : option jsstring
}.

Definition emptyData : LogData :=
  mkLogData None None None None None None None None None.

(** [lastMessage] as delivered by the socket hook. *)
Record WsMessage : Type := mkWsMessage {
  msg_type : option jsstring;
  msg_data : option LogData
}.

(** *** Events as the socket delivers them

    The socket carries JSON, and what arrives need not have the declared
    types.  The effects call string methods on three fields of the data,
    [message], [step] and [type]: these hold any JSON value.  No method is
    called on the other fields, so no value of theirs can make an effect
    throw; they stay as declared.  Of a number only its truthiness is read,
    so integers stand for the numbers. *)
#[local] Unset Elimination Schemes.

Inductive json : Type :=
| JNull
| JBoolean (b : bool)
| JNumber (n : Z)
| JString (s : jsstring)
| JArray (items : list json)
| JObject (members : list (jsstring * json)).

#[local] Set Elimination Schemes.

(** The [data] of a delivered event; [None] is an absent property. *)
Record RawData : Type := mkRawData {
  rd_message : option json;
  rd_step : option json;
  rd_type : option json;
  rd_progress : option Z;
  rd_agent : option jsstring;
  rd_status : option jsstring;
  rd_level : option jsstring;
  rd_details : option jsstring;
  rd_emoji : option jsstring
}.

(** A delivered [lastMessage].  A [data] that is not an object reads as
    [None] when it is falsy and as the object without properties when it is
    truthy: the effects only test it and read properties off it.  A [type]
    that is not a string differs from every tag, as an unknown string
    does. *)
Record RawMessage : Type := mkRawMessage {
  raw_type : option jsstring;
  raw_data : option RawData
}.

(** Truthiness of a property value. *)
Definition truthyJson (v : option json) : bool :=
  match v with
  | None | Some JNull => false
  | Some (JBoolean b) => b
  | Some (JNumber n) => negb (n =? 0)
  | Some (JString s) => match s with [] => false | _ :: _ => true end
  | Some (JArray _) | Some (JObject _) => true
  end.

(** How a piece of an effect's body completes: normally with a value, or
    abruptly by throwing. *)
Inductive completion (A : Type) : Type :=
| Normal (a : A)
| Thrown.

Arguments Thrown {A}.

Definition bind {A B : Type} (c : completion A) (f : A -> completion B)
  : completion B :=
  match c with
  | Normal a => f a
  | Thrown => Thrown
  end.

(** [try { body } catch (error) { handler }] *)
Definition catch {A : Type} (body handler : completion A) : completion A :=
  match body with
  | Normal a => Normal a
  | Thrown => handler
  end.

(** The receiver of [v?.toLowerCase()]: [undefined] and [null] end the
    chain, a string has the method, and on any other value the property is
    [undefined] and calling it throws a TypeError. *)
Definition stringOrNone (v : option json) : completion (option jsstring) :=
  match v with
  | None | Some JNull => Normal None
  | Some (JString s) => Normal (Some s)
  | Some _ => Thrown
  end.

(** What one run of an effect reads from the clock and the random source. *)
Record Env : Type := mkEnv {
  now : Z;
  rnd : jsstring
}.

(** [data.progress === n] and [data.progress > 0]. *)
Definition progress_is (d : LogData) (n : Z) : bool :=
  match ld_progress d with Some p => p =? n | None => false end.

Definition progress_gt0 (d : LogData) : bool :=
  match ld_progress d with Some p => 0 <? p | None => false end.

(** The state setters an effect calls, in call order. *)
Inductive Call (Log : Type) : Type :=
| PushActivity (a : Log)         (* setActivities(prev => [a, ...prev.slice(0, cap - 1)]) *)
| SetCurrentProgress (p : Z).    (* setCurrentProgress(p) *)

Arguments SetCurrentProgress {Log} p.

(** [prev => [a, ...prev.slice(0, cap - 1)]] *)
Definition pushActivity {Log : Type} (cap : Z) (a : Log) (prev : list Log)
  : list Log :=
  a :: slice prev 0 (cap - 1).

End Wire.

Import Wire.

Notation "x <- c1 ;; c2" := (bind c1 (fun x => c2))
  (at level 61, c1 at next level, right associativity).

(* ===================================================================== *)
(** ** UnifiedRealTimeMonitor                                              *)
(* ===================================================================== *)

Module Unified.

(** [ActivityLog['type']] and [ActivityLog['status']]. *)
Inductive ActivityType : Type :=
| t_initialization | t_domain_analysis | t_privacy_assessment
| t_bias_detection | t_relationship_mapping | t_quality_planning
| t_data_generation | t_quality_validation | t_final_assembly
| t_completion | t_error | t_system | t_gemini_call | t_agent_response.

Inductive Status : Type :=
| s_started | s_in_progress | s_completed | s_error | s_fallback.

(** Identifiers are template strings over the clock and a random suffix;
    they are kept structured. *)
Inductive ident : Type :=
| IdStamp (now : Z) (suffix : jsstring)      (* `${Date.now()}_${...}` *)
| IdError (now : Z).                         (* `error_${Date.now()}` *)

(** [metadata] of a record (the pass-through [agent_data] is left out). *)
Record Metadata : Type := mkMetadata {
  md_progress : option Z;
  md_step : option jsstring;
  md_raw_message : option jsstring;
  md_type : option jsstring
}.

Record ActivityLog : Type := mkActivityLog {
  id : ident;
  timestamp : Z;
  type : ActivityType;
  status : Status;
  message : jsstring;
  metadata : option Metadata;
  progress : option Z;
  agent : option jsstring;
  level : option jsstring;
  details : option jsstring
}.

(** *** The pattern table (an object literal: entries in insertion order) *)

Inductive PatternKey : Type :=
| k_progress | k_agent | k_gemini | k_system | k_error | k_completion.

Definition markers : list string :=
  ["‚úÖ"; "üîÑ"; "‚ùå"; "‚ö†Ô∏è"; "ü§ñ"; "üß†"; "üîí"; "‚öñÔ∏è"; "üîó"; "üéØ"].

Definition wordOrSpace : regex := Class (fun c => isWord c || isSpace c).

(* /\[(\d+)%\]\s*([^:]+):\s*(.+)/ *)
Definition re_progress : regex :=
  seqs [chr 91; Group 1 (Plus digit); chr 37; chr 93; Star space;
        Group 2 (Plus notColon); chr 58; Star space; Group 3 (Plus dot)].

(* /(m1|...|m10)\s*([^:]+):\s*(.+)/ *)
Definition re_agent : regex :=
  seqs [Group 1 (alts (map (fun m => lit (js m)) markers)); Star space;
        Group 2 (Plus notColon); chr 58; Star space; Group 3 (Plus dot)].

(* /Gemini\s+([\w\s]+):\s*(.+)/i *)
Definition re_gemini : regex :=
  seqs [liti (js "Gemini"); Plus space; Group 1 (Plus wordOrSpace);
        chr 58; Star space; Group 2 (Plus dot)].

(* /System\s+([\w\s]+):\s*(.+)/i *)
Definition re_system : regex :=
  seqs [liti (js "System"); Plus space; Group 1 (Plus wordOrSpace);
        chr 58; Star space; Group 2 (Plus dot)].

(* /(Error|Failed|Exception):\s*(.+)/i *)
Definition re_error : regex :=
  seqs [Group 1 (alts [liti (js "Error"); liti (js "Failed");
                       liti (js "Exception")]);
        chr 58; Star space; Group 2 (Plus dot)].

(* /(Completed|Finished|Done):\s*(.+)/i *)
Definition re_completion : regex :=
  seqs [Group 1 (alts [liti (js "Completed"); liti (js "Finished");
                       liti (js "Done")]);
        chr 58; Star space; Group 2 (Plus dot)].

Definition patterns : list (PatternKey * regex) :=
  [(k_progress, re_progress); (k_agent, re_agent); (k_gemini, re_gemini);
   (k_system, re_system); (k_error, re_error);
   (k_completion, re_completion)].

(** The [switch (type)] of the loop body: the object literal each case
    assigns to [logData]. *)
Definition extract (key : PatternKey) (m : match_array)
           (message : jsstring) : LogData :=
  match key with
  | k_progress =>
    {| ld_progress := parseInt (group m 1);
       ld_step := Some (trim (group m 2));
       ld_message := Some (trim (group m 3));
       ld_type := Some (js "progress");
       ld_agent := None; ld_status := None; ld_level := None;
       ld_details := None; ld_emoji := None |}
  | k_agent =>
    {| ld_status := Some (group m 1);
       ld_agent := Some (trim (group m 2));
       ld_message := Some (trim (group m 3));
       ld_type := Some (js "agent");
       ld_step := None; ld_progress := None; ld_level := None;
       ld_details := None; ld_emoji := None |}
  | k_gemini =>
    {| ld_agent := Some (js "Gemini AI");
       ld_status := Some (group m 1);
       ld_message := Some (trim (group m 2));
       ld_type := Some (js "gemini");
       ld_step := None; ld_progress := None; ld_level := None;
       ld_details := None; ld_emoji := None |}
  | k_error =>
    {| ld_level := Some (js "error");
       ld_message := Some (trim (group m 2));
       ld_type := Some (js "error");
       ld_step := None; ld_progress := None; ld_agent := None;
       ld_status := None; ld_details := None; ld_emoji := None |}
  | k_completion =>
    {| ld_level := Some (js "success");
       ld_message := Some (trim (group m 2));
       ld_type := Some (js "completion");
       ld_step := None; ld_progress := None; ld_agent := None;
       ld_status := None; ld_details := None; ld_emoji := None |}
  | _ =>
    {| (* match[2] || match[1] || message *)
       ld_message :=
         Some (or_else (or_opt (nth_group m 2) (nth_group m 1)) message);
       ld_type := Some (js "system");
       ld_step := None; ld_progress := None; ld_agent := None;
       ld_status := None; ld_level := None; ld_details := None;
       ld_emoji := None |}
  end.

Definition parseText (message : jsstring) : LogData :=
  match firstMatch patterns message with
  | Some (key, m) => extract key m message
  | None =>
    (* if (!logData) logData = { message: message, type: 'system' } *)
    {| ld_message := Some message;
       ld_type := Some (js "system");
       ld_step := None; ld_progress := None; ld_agent := None;
       ld_status := None; ld_level := None; ld_details := None;
       ld_emoji := None |}
  end.

(** The value of [logData] at [if (logData)]; [None] is [null]. *)
Definition normalize (lastMessage : WsMessage) : option LogData :=
  match msg_data lastMessage with
  | Some data =>
    if opt_is (msg_type lastMessage) (js "generation_update")
    then Some data
    else if truthy (ld_message data)
    then Some (parseText (or_else (ld_message data) []))
    else None
  | None => None
  end.

(** *** Classification helpers *)

Definition detectActivityType (data : LogData) : ActivityType :=
  let message := lower_or_empty (ld_message data) in
  let step := lower_or_empty (ld_step data) in
  let type := lower_or_empty (ld_type data) in
  if str_eqb type (js "gemini") || includes message (js "gemini")
     || includes step (js "gemini") then t_gemini_call
  else if str_eqb type (js "agent") || includes message (js "agent")
  then t_agent_response
  else if includes step (js "initialization")
          || includes message (js "initializing") then t_initialization
  else if includes step (js "domain") || includes message (js "domain")
  then t_domain_analysis
  else if includes step (js "privacy") || includes message (js "privacy")
  then t_privacy_assessment
  else if includes step (js "bias") || includes message (js "bias")
  then t_bias_detection
  else if includes step (js "relationship")
          || includes message (js "relationship")
  then t_relationship_mapping
  else if includes step (js "quality") || includes message (js "quality")
  then t_quality_planning
  else if includes step (js "generation")
          || includes message (js "generating") then t_data_generation
  else if includes step (js "validation")
          || includes message (js "validating") then t_quality_validation
  else if includes step (js "assembly")
          || includes message (js "assembling") then t_final_assembly
  else if includes step (js "completion")
          || includes message (js "completed") then t_completion
  else if progress_is data (-1) || includes message (js "error")
          || includes message (js "failed") then t_error
  else t_system.

Definition mark_ok : string := "‚úÖ".
Definition mark_err : string := "‚ùå".
Definition mark_warn : string := "‚ö†Ô∏è".

Definition detectStatus (data : LogData) : Status :=
  if progress_is data 100 then s_completed
  else if progress_is data (-1) then s_error
  else if progress_gt0 data then s_in_progress
  else if opt_is (ld_status data) (js mark_ok) then s_completed
  else if opt_is (ld_status data) (js mark_err) then s_error
  else if opt_is (ld_status data) (js mark_warn) then s_fallback
  else if opt_is (ld_level data) (js "error") then s_error
  else if opt_is (ld_level data) (js "success") then s_completed
  else s_started.

Definition detectAgent (data : LogData) : jsstring :=
  if truthy (ld_agent data) then or_else (ld_agent data) []
  else
    let message := lower_or_empty (ld_message data) in
    let step := lower_or_empty (ld_step data) in
    if includes message (js "domain expert") || includes step (js "domain")
    then js "Domain Expert"
    else if includes message (js "privacy agent")
            || includes step (js "privacy") then js "Privacy Agent"
    else if includes message (js "bias detector")
            || includes step (js "bias") then js "Bias Detector"
    else if includes message (js "quality agent")
            || includes step (js "quality") then js "Quality Agent"
    else if includes message (js "relationship agent")
            || includes step (js "relationship")
    then js "Relationship Agent"
    else if includes message (js "gemini")
            || includes message (js "2.0 flash") then js "Gemini AI"
    else if includes message (js "ollama") then js "Ollama"
    else js "System".

Definition detectLevel (data : LogData) : jsstring :=
  if truthy (ld_level data) then or_else (ld_level data) []
  else if progress_is data (-1) || opt_is (ld_status data) (js mark_err)
  then js "error"
  else if progress_is data 100 || opt_is (ld_status data) (js mark_ok)
  then js "success"
  else if opt_is (ld_status data) (js mark_warn) then js "warning"
  else js "info".

(** *** The message effect *)

Definition newActivity (env : Env) (lastMessage : WsMessage)
           (logData : LogData) : ActivityLog :=
  {| id := IdStamp (now env) (rnd env);
     timestamp := now env;
     type := detectActivityType logData;
     status := detectStatus logData;
     message := or_else (ld_message logData) (js "Processing...");
     metadata :=
       Some {| md_progress := ld_progress logData;
               md_step := ld_step logData;
               md_raw_message :=
                 match msg_data lastMessage with
                 | Some data => ld_message data
                 | None => None
                 end;
               md_type := ld_type logData |};
     progress := ld_progress logData;
     agent := Some (detectAgent logData);
     level := Some (detectLevel logData);
     details := or_opt (ld_details logData) (ld_step logData) |}.

(** Body of [useEffect(..., [lastMessage, maxLogs, isPaused, autoScroll])]
    on an event whose fields have the types the envelope declares: the
    setters it calls.  This is the [try] block on such events; the whole
    body, with the [catch] block and on whatever is delivered, is
    [messageEffect] below.  The scroll of the log area is a DOM effect and
    is left out. *)
Definition effect (env : Env) (isPaused : bool)
           (lastMessage : option WsMessage) : list (Call ActivityLog) :=
  match lastMessage with
  | None => []
  | Some lm =>
    if isPaused then []
    else
      match normalize lm with
      | Some logData =>
        PushActivity (newActivity env lm logData)
        :: match ld_progress logData with
           | Some p => if 0 <=? p then [SetCurrentProgress p] else []
           | None => []
           end
      | None => []
      end
  end.

(** *** The message effect on whatever is delivered *)

(** The groups on which a case of the [switch] calls [.trim()]; the call
    throws on a group that took no part in the match. *)
Definition trimmedGroups (key : PatternKey) : list nat :=
  match key with
  | k_progress | k_agent => [2%nat; 3%nat]
  | k_gemini | k_error | k_completion => [2%nat]
  | k_system => []
  end.

(** The scan loop with its [switch], and the default after it. *)
Definition parseDelivered (message : jsstring) : completion LogData :=
  match firstMatch patterns message with
  | Some (key, m) =>
    if forallb (defined m) (trimmedGroups key)
    then Normal (extract key m message)
    else Thrown
  | None => Normal (parseText message)
  end.

(** [logData = lastMessage.data] as the classification helpers read it:
    [detectActivityType], the first of them to run, calls [toLowerCase] on
    the message, the step and the type. *)
Definition strings (data : RawData) : completion LogData :=
  message <- stringOrNone (rd_message data);;
  step <- stringOrNone (rd_step data);;
  type <- stringOrNone (rd_type data);;
  Normal {| ld_message := message; ld_step := step; ld_type := type;
            ld_progress := rd_progress data; ld_agent := rd_agent data;
            ld_status := rd_status data; ld_level := rd_level data;
            ld_details := rd_details data; ld_emoji := rd_emoji data |}.

(** [lastMessage.data?.message] once it is known to be a string or
    absent, for [metadata.raw_message]. *)
Definition readMessage (lm : RawMessage) : WsMessage :=
  {| msg_type := raw_type lm;
     msg_data :=
       match raw_data lm with
       | Some data =>
         Some {| ld_message :=
                   match rd_message data with
                   | Some (JString s) => Some s
                   | _ => None
                   end;
                 ld_step := None; ld_progress := None; ld_agent := None;
                 ld_status := None; ld_level := None; ld_type := None;
                 ld_details := None; ld_emoji := None |}
       | None => None
       end |}.

(** The statements under [if (logData)]. *)
Definition accept (env : Env) (lastMessage : WsMessage) (logData : LogData)
  : list (Call ActivityLog) :=
  PushActivity (newActivity env lastMessage logData)
  :: match ld_progress logData with
     | Some p => if 0 <=? p then [SetCurrentProgress p] else []
     | None => []
     end.

(** The [try] block.  Whatever throws in it (a string method on a value
    that is not a string, [.trim()] on a missing group) throws before the
    first setter is called. *)
Definition tryBlock (env : Env) (lm : RawMessage)
  : completion (list (Call ActivityLog)) :=
  match raw_data lm with
  | Some data =>
    if opt_is (raw_type lm) (js "generation_update")
    then
      logData <- strings data;;
      Normal (accept env (readMessage lm) logData)
    else if truthyJson (rd_message data)
    then
      match rd_message data with
      | Some (JString message) =>
        logData <- parseDelivered message;;
        Normal (accept env (readMessage lm) logData)
      | _ => Thrown                     (* message.match is not a function *)
      end
    else Normal []
  | None => Normal []
  end.

(** The record the [catch] block builds. *)
Definition errorActivity (env : Env) : ActivityLog :=
  {| id := IdError (now env);
     timestamp := now env;
     type := t_error;
     status := s_error;
     message := js "Failed to parse incoming log message";
     metadata := None;
     progress := None;
     agent := Some (js "System");
     level := Some (js "error");
     details := None |}.

(** The whole body of the effect. *)
Definition messageEffect (env : Env) (isPaused : bool)
           (lastMessage : option RawMessage)
  : completion (list (Call ActivityLog)) :=
  match lastMessage with
  | None => Normal []
  | Some lm =>
    if isPaused then Normal []
    else catch (tryBlock env lm)
               (Normal [PushActivity (errorActivity env)])
  end.

(** *** Component state and its transitions *)

Record State : Type := mkState {
  activities : list ActivityLog;
  currentProgress : Z;
  isPaused : bool;
  autoScroll : bool
}.

(** Default of the [maxLogs] prop. *)
Definition defaultMaxLogs : Z := 100.

(** The [useState] initial values. *)
Definition initial : State :=
  {| activities := []; currentProgress := 0; isPaused := false;
     autoScroll := true |}.

Definition call (maxLogs : Z) (s : State) (c : Call ActivityLog) : State :=
  match c with
  | PushActivity a =>
    {| activities := pushActivity maxLogs a (activities s);
       currentProgress := currentProgress s; isPaused := isPaused s;
       autoScroll := autoScroll s |}
  | SetCurrentProgress p =>
    {| activities := activities s; currentProgress := p;
       isPaused := isPaused s; autoScroll := autoScroll s |}
  end.

(** The effect runs after a render in which one of its dependencies
    changed, on the values of that render; [lastMessage] is what the socket
    hook returns at that render. *)
Definition runEffect (maxLogs : Z) (env : Env)
           (lastMessage : option WsMessage) (s : State) : State :=
  fold_left (call maxLogs) (effect env (isPaused s) lastMessage) s.

(** What makes the component render again.  The socket hook [useWebSocket]
    is outside these sources and nothing is assumed of it: the component
    keeps no message of its own, and every event names the [lastMessage]
    the hook returns at the render the event causes. *)
Inductive Event : Type :=
| Receive (m : WsMessage)
    (* the hook returns a new [lastMessage] *)
| TogglePause (lastMessage : option WsMessage)
    (* onClick={() => setIsPaused(!isPaused)} *)
| ToggleAutoScroll (lastMessage : option WsMessage)
    (* onClick={() => setAutoScroll(!autoScroll)} *)
| ClearLogs.
    (* onClick={clearLogs} *)

(** One event, followed by the effect when the event changed one of the
    dependencies [lastMessage], [isPaused], [autoScroll]. *)
Definition step (maxLogs : Z) (env : Env) (e : Event) (s : State) : State :=
  match e with
  | Receive m => runEffect maxLogs env (Some m) s
  | TogglePause lastMessage =>
    runEffect maxLogs env lastMessage
      {| activities := activities s; currentProgress := currentProgress s;
         isPaused := negb (isPaused s); autoScroll := autoScroll s |}
  | ToggleAutoScroll lastMessage =>
    runEffect maxLogs env lastMessage
      {| activities := activities s; currentProgress := currentProgress s;
         isPaused := isPaused s; autoScroll := negb (autoScroll s) |}
  | ClearLogs =>
    {| activities := []; currentProgress := 0; isPaused := isPaused s;
       autoScroll := autoScroll s |}
  end.

Fixpoint run (maxLogs : Z) (trace : list (Env * Event)) (s : State)
  : State :=
  match trace with
  | [] => s
  | (env, e) :: trace' => run maxLogs trace' (step maxLogs env e s)
  end.

(** *** The filter projection and the rendered list *)

Definition filteredActivities (filterLevel filterAgent searchTerm : jsstring)
           (activities : list ActivityLog) : list ActivityLog :=
  filter
    (fun activity =>
       let levelMatch :=
         str_eqb filterLevel (js "all")
         || opt_is (level activity) filterLevel in
       let agentMatch :=
         str_eqb filterAgent (js "all")
         || opt_is (agent activity) filterAgent in
       let searchMatch :=
         str_eqb searchTerm []
         || includes (toLowerCase (message activity))
                     (toLowerCase searchTerm)
         || match agent activity with
            | Some a => includes (toLowerCase a) (toLowerCase searchTerm)
            | None => false
            end in
       levelMatch && agentMatch && searchMatch)
    activities.

(** The records mapped to log rows: none in the compact or collapsed view,
    else [filteredActivities.slice(0, 50)]. *)
Definition renderedActivities (compact isCollapsed : bool)
           (filtered : list ActivityLog) : list ActivityLog :=
  if compact then []
  else if isCollapsed then []
  else match filtered with
       | [] => []
       | _ => slice filtered 0 50
       end.

(** *** System status poller *)

Record Backend : Type := mkBackend {
  healthy : bool;
  lastCheck : option Z;
  responseTime : Z
}.

Inductive GeminiStatus : Type := online | offline | unknown.

Record Gemini : Type := mkGemini {
  gemini_status : GeminiStatus;
  model : jsstring;
  quotaPreserved : bool
}.

Record Agents : Type := mkAgents {
  active : bool;
  total : Z;
  operational : Z
}.

Record Websockets : Type := mkWebsockets {
  connected : bool;
  ws_status : jsstring
}.

Record SystemStatus : Type := mkSystemStatus {
  backend : Backend;
  gemini : Gemini;
  agents : Agents;
  websockets : Websockets
}.

Definition initialStatus : SystemStatus :=
  {| backend := {| healthy := false; lastCheck := None; responseTime := 0 |};
     gemini := {| gemini_status := unknown;
                  model := js "gemini-2.0-flash-exp";
                  quotaPreserved := false |};
     agents := {| active := false; total := 5; operational := 0 |};
     websockets := {| connected := false;
                      ws_status := js "disconnected" |} |}.

(** What the component reads of the probe's response
    ([healthResponse.data?.services?....]; an absent link is [None]). *)
Record HealthResponse : Type := mkHealthResponse {
  hr_healthy : bool;
  hr_gemini_status : option jsstring;
  hr_gemini_model : option jsstring;
  hr_gemini_quota_preserved : option bool;
  hr_agents : option jsstring;
  hr_websockets : option jsstring
}.

(** Outcome of [await ApiService.healthCheck()] with the clock readings of
    the tick. *)
Inductive Probe : Type :=
| Resolved (healthResponse : HealthResponse)
           (startTime endTime checkedAt : Z)
| Rejected (checkedAt : Z).

Definition checkSystemStatus (isConnected : bool) (probe : Probe)
           (prev : SystemStatus) : SystemStatus :=
  match probe with
  | Resolved healthResponse startTime endTime checkedAt =>
    (* setSystemStatus(newStatus) *)
    {| backend :=
         {| healthy := hr_healthy healthResponse;
            lastCheck := Some checkedAt;
            responseTime := endTime - startTime |};
       gemini :=
         {| gemini_status :=
              if opt_is (hr_gemini_status healthResponse) (js "ready")
              then online else offline;
            model := or_else (hr_gemini_model healthResponse)
                             (js "gemini-2.0-flash-exp");
            quotaPreserved :=
              match hr_gemini_quota_preserved healthResponse with
              | Some b => b
              | None => false
              end |};
       agents :=
         {| active := opt_is (hr_agents healthResponse) (js "active");
            total := 5;
            operational :=
              if opt_is (hr_agents healthResponse) (js "active")
              then 5 else 0 |};
       websockets :=
         {| connected := isConnected;
            ws_status := or_else (hr_websockets healthResponse)
                                 (js "unknown") |} |}
  | Rejected checkedAt =>
    (* setSystemStatus(prev => ({ ...prev, backend: {...} })) *)
    {| backend := {| healthy := false; lastCheck := Some checkedAt;
                     responseTime := 0 |};
       gemini := gemini prev;
       agents := agents prev;
       websockets := websockets prev |}
  end.

End Unified.

(* ===================================================================== *)
(** ** SimpleRealTimeMonitor                                               *)
(* ===================================================================== *)

Module Simple.

Inductive Status : Type :=
| s_started | s_in_progress | s_completed | s_error.

Inductive ident : Type :=
| IdStamp (now : Z) (random : jsstring).     (* `${Date.now()}_${Math.random()}` *)

Record ActivityLog : Type := mkActivityLog {
  id : ident;
  timestamp : Z;
  type : jsstring;
  status : Status;
  message : jsstring;
  agent : option jsstring;
  progress : option Z
}.

(* /\[(\d+)%\]\s*([^:]+):\s*(.+)/ *)
Definition re_progress : regex :=
  seqs [chr 91; Group 1 (Plus digit); chr 37; chr 93; Star space;
        Group 2 (Plus notColon); chr 58; Star space; Group 3 (Plus dot)].

Definition normalize (lastMessage : WsMessage) : option LogData :=
  match msg_data lastMessage with
  | Some data =>
    if opt_is (msg_type lastMessage) (js "generation_update")
    then Some data
    else if opt_is (msg_type lastMessage) (js "raw_message")
            && truthy (ld_message data)
    then
      match match_ re_progress (or_else (ld_message data) []) with
      | Some progressMatch =>
        Some {| ld_progress := parseInt (group progressMatch 1);
                ld_step := Some (trim (group progressMatch 2));
                ld_message := Some (trim (group progressMatch 3));
                ld_agent := None; ld_status := None; ld_level := None;
                ld_type := None; ld_details := None; ld_emoji := None |}
      | None => None
      end
    else None
  | None => None
  end.

Definition detectType (data : LogData) : jsstring :=
  let message := lower_or_empty (ld_message data) in
  let step := lower_or_empty (ld_step data) in
  if includes step (js "domain") || includes message (js "domain")
  then js "domain_analysis"
  else if includes step (js "privacy") || includes message (js "privacy")
  then js "privacy_assessment"
  else if includes step (js "bias") || includes message (js "bias")
  then js "bias_detection"
  else if includes step (js "generation")
          || includes message (js "generating") then js "data_generation"
  else if includes step (js "quality") || includes message (js "quality")
  then js "quality_validation"
  else js "system".

Definition detectStatus (data : LogData) : Status :=
  if progress_is data 100 then s_completed
  else if progress_is data (-1) then s_error
  else if progress_gt0 data then s_in_progress
  else s_started.

Definition detectAgent (data : LogData) : jsstring :=
  let message := lower_or_empty (ld_message data) in
  let step := lower_or_empty (ld_step data) in
  if includes message (js "domain") || includes step (js "domain")
  then js "Domain Expert"
  else if includes message (js "privacy") || includes step (js "privacy")
  then js "Privacy Agent"
  else if includes message (js "bias") || includes step (js "bias")
  then js "Bias Detector"
  else if includes message (js "quality") || includes step (js "quality")
  then js "Quality Agent"
  else js "System".

Definition newActivity (env : Env) (logData : LogData) : ActivityLog :=
  {| id := IdStamp (now env) (rnd env);
     timestamp := now env;
     type := detectType logData;
     status := detectStatus logData;
     message := or_else (ld_message logData) (js "Processing...");
     agent := Some (detectAgent logData);
     progress := ld_progress logData |}.

(** Body of [useEffect(..., [lastMessage, isPaused])] on an event whose
    fields have the types the envelope declares; the whole body, with its
    [catch] block, is [messageEffect] below. *)
Definition effect (env : Env) (isPaused : bool)
           (lastMessage : option WsMessage) : list (Call ActivityLog) :=
  match lastMessage with
  | None => []
  | Some lm =>
    if isPaused then []
    else
      match normalize lm with
      | Some logData =>
        PushActivity (newActivity env logData)
        :: match ld_progress logData with
           | Some p => [SetCurrentProgress p]  (* progress !== undefined *)
           | None => []
           end
      | None => []
      end
  end.

(** [logData = lastMessage.data] as [detectType] reads it: [toLowerCase]
    is called on the message and on the step; the type is not read. *)
Definition strings (data : RawData) : completion LogData :=
  message <- stringOrNone (rd_message data);;
  step <- stringOrNone (rd_step data);;
  Normal {| ld_message := message; ld_step := step;
            ld_type :=
              match rd_type data with
              | Some (JString s) => Some s
              | _ => None
              end;
            ld_progress := rd_progress data; ld_agent := rd_agent data;
            ld_status := rd_status data; ld_level := rd_level data;
            ld_details := rd_details data; ld_emoji := rd_emoji data |}.

Definition accept (env : Env) (logData : LogData)
  : list (Call ActivityLog) :=
  PushActivity (newActivity env logData)
  :: match ld_progress logData with
     | Some p => [SetCurrentProgress p]
     | None => []
     end.

(** The [try] block on whatever is delivered. *)
Definition tryBlock (env : Env) (lm : RawMessage)
  : completion (list (Call ActivityLog)) :=
  match raw_data lm with
  | Some data =>
    if opt_is (raw_type lm) (js "generation_update")
    then
      logData <- strings data;;
      Normal (accept env logData)
    else if opt_is (raw_type lm) (js "raw_message")
            && truthyJson (rd_message data)
    then
      match rd_message data with
      | Some (JString message) =>
        match match_ re_progress message with
        | Some progressMatch =>
          if defined progressMatch 2 && defined progressMatch 3
          then
            Normal
              (accept env
                 {| ld_progress := parseInt (group progressMatch 1);
                    ld_step := Some (trim (group progressMatch 2));
                    ld_message := Some (trim (group progressMatch 3));
                    ld_agent := None; ld_status := None; ld_level := None;
                    ld_type := None; ld_details := None;
                    ld_emoji := None |})
          else Thrown
        | None => Normal []
        end
      | _ => Thrown                     (* message.match is not a function *)
      end
    else Normal []
  | None => Normal []
  end.

(** The whole body: the [catch] block only writes to the console. *)
Definition messageEffect (env : Env) (isPaused : bool)
           (lastMessage : option RawMessage)
  : completion (list (Call ActivityLog)) :=
  match lastMessage with
  | None => Normal []
  | Some lm =>
    if isPaused then Normal []
    else catch (tryBlock env lm) (Normal [])
  end.

Record State : Type := mkState {
  activities : list ActivityLog;
  currentProgress : Z;
  isPaused : bool
}.

Definition initial : State :=
  {| activities := []; currentProgress := 0; isPaused := false |}.

(** [prev => [newActivity, ...prev.slice(0, 49)]] *)
Definition call (s : State) (c : Call ActivityLog) : State :=
  match c with
  | PushActivity a =>
    {| activities := pushActivity 50 a (activities s);
       currentProgress := currentProgress s; isPaused := isPaused s |}
  | SetCurrentProgress p =>
    {| activities := activities s; currentProgress := p;
       isPaused := isPaused s |}
  end.

(** [lastMessage] is what the socket hook returns at the render after
    which the effect runs. *)
Definition runEffect (env : Env) (lastMessage : option WsMessage)
           (s : State) : State :=
  fold_left call (effect env (isPaused s) lastMessage) s.

(** As in the unified monitor, every event names the [lastMessage] the hook
    returns at the render it causes. *)
Inductive Event : Type :=
| Receive (m : WsMessage)
| TogglePause (lastMessage : option WsMessage)
| ClearLogs.

Definition step (env : Env) (e : Event) (s : State) : State :=
  match e with
  | Receive m => runEffect env (Some m) s
  | TogglePause lastMessage =>
    runEffect env lastMessage
      {| activities := activities s; currentProgress := currentProgress s;
         isPaused := negb (isPaused s) |}
  | ClearLogs =>
    {| activities := []; currentProgress := 0; isPaused := isPaused s |}
  end.

Fixpoint run (trace : list (Env * Event)) (s : State) : State :=
  match trace with
  | [] => s
  | (env, e) :: trace' => run trace' (step env e s)
  end.

End Simple.

(* ===================================================================== *)
(** ** RealTimeMonitor                                                     *)
(* ===================================================================== *)

Module RealTime.

Inductive Status : Type :=
| s_started | s_in_progress | s_completed | s_error | s_warning.

Record Metadata : Type := mkMetadata {
  md_emoji : option jsstring;
  md_step : option jsstring;
  md_raw_message : option jsstring
}.

Record LogEntry : Type := mkLogEntry {
  id : Z * jsstring;
  timestamp : Z;
  type : jsstring;
  status : Status;
  message : jsstring;
  agent : jsstring;
  progress : option Z;
  level : jsstring;
  metadata : Metadata
}.

Inductive PatternType : Type :=
| p_progress | p_agent_action | p_gemini | p_agent_status | p_domain_expert
| p_privacy_agent | p_bias_detector | p_quality_agent
| p_relationship_agent | p_system | p_error.

Definition colonOrSpace : regex := Class (fun c => N.eqb c 58 || isSpace c).
Definition colonOrDash : regex := Class (fun c => N.eqb c 58 || N.eqb c 45).

(** [/<A>\s+<B>[:\s]+(.+)/i] *)
Definition labelled (a b : string) : regex :=
  seqs [liti (js a); Plus space; liti (js b); Plus colonOrSpace;
        Group 1 (Plus dot)].

Definition patterns : list (PatternType * regex) :=
  [ (* /\[(\d+)%\]\s*([^:]+):\s*(.+)/ *)
    (p_progress,
     seqs [chr 91; Group 1 (Plus digit); chr 37; chr 93; Star space;
           Group 2 (Plus notColon); chr 58; Star space;
           Group 3 (Plus dot)]);
    (* /(🤖|🧠|🔒|⚖️|🔗|🎯|📊)\s*([^:]+):\s*(.+)/ *)
    (p_agent_action,
     seqs [Group 1 (alts (map (fun m => lit (js m))
                              ["🤖"; "🧠"; "🔒"; "⚖️"; "🔗"; "🎯"; "📊"]));
           Star space; Group 2 (Plus notColon); chr 58; Star space;
           Group 3 (Plus dot)]);
    (* /Gemini\s+(2\.0\s+Flash|AI|Model)\s*[:-]\s*(.+)/i *)
    (p_gemini,
     seqs [liti (js "Gemini"); Plus space;
           Group 1 (alts [seqs [liti (js "2.0"); Plus space;
                                liti (js "Flash")];
                          liti (js "AI"); liti (js "Model")]);
           Star space; colonOrDash; Star space; Group 2 (Plus dot)]);
    (* /(✅|🔄|❌|⚠️|🎯)\s*([^:]+)\s+Agent:\s*(.+)/i *)
    (p_agent_status,
     seqs [Group 1 (alts (map (fun m => liti (js m))
                              ["✅"; "🔄"; "❌"; "⚠️"; "🎯"]));
           Star space; Group 2 (Plus notColon); Plus space;
           liti (js "Agent:"); Star space; Group 3 (Plus dot)]);
    (* /Domain\s+Expert[:\s]+(.+)/i and its four siblings *)
    (p_domain_expert, labelled "Domain" "Expert");
    (p_privacy_agent, labelled "Privacy" "Agent");
    (p_bias_detector, labelled "Bias" "Detector");
    (p_quality_agent, labelled "Quality" "Agent");
    (p_relationship_agent, labelled "Relationship" "Agent");
    (* /System[:\s]+(.+)/i *)
    (p_system,
     seqs [liti (js "System"); Plus colonOrSpace; Group 1 (Plus dot)]);
    (* /(Error|Failed|Exception)[:\s]+(.+)/i *)
    (p_error,
     seqs [Group 1 (alts [liti (js "Error"); liti (js "Failed");
                          liti (js "Exception")]);
           Plus colonOrSpace; Group 2 (Plus dot)]) ].

(** [{ agent: a, message: match[1].trim(), type: t }] *)
Definition agentLine (a t : string) (m : match_array) : LogData :=
  {| ld_agent := Some (js a);
     ld_message := Some (trim (group m 1));
     ld_type := Some (js t);
     ld_step := None; ld_progress := None; ld_status := None;
     ld_level := None; ld_details := None; ld_emoji := None |}.

Definition extract (key : PatternType) (m : match_array)
           (message : jsstring) : LogData :=
  match key with
  | p_progress =>
    {| ld_progress := parseInt (group m 1);
       ld_step := Some (trim (group m 2));
       ld_message := Some (trim (group m 3));
       ld_type := Some (js "progress");
       ld_agent := None; ld_status := None; ld_level := None;
       ld_details := None; ld_emoji := None |}
  | p_agent_action =>
    {| ld_emoji := Some (group m 1);
       ld_agent := Some (trim (group m 2));
       ld_message := Some (trim (group m 3));
       ld_type := Some (js "agent_action");
       ld_step := None; ld_progress := None; ld_status := None;
       ld_level := None; ld_details := None |}
  | p_gemini =>
    {| ld_agent := Some (js "Gemini AI");
       ld_message := Some (trim (group m 2));
       ld_type := Some (js "gemini");
       ld_step := None; ld_progress := None; ld_status := None;
       ld_level := None; ld_details := None; ld_emoji := None |}
  | p_agent_status =>
    {| ld_status := Some (group m 1);
       ld_agent := Some (trim (group m 2));
       ld_message := Some (trim (group m 3));
       ld_type := Some (js "agent");
       ld_step := None; ld_progress := None; ld_level := None;
       ld_details := None; ld_emoji := None |}
  | p_domain_expert => agentLine "Domain Expert" "domain_analysis" m
  | p_privacy_agent => agentLine "Privacy Agent" "privacy_assessment" m
  | p_bias_detector => agentLine "Bias Detector" "bias_detection" m
  | p_quality_agent => agentLine "Quality Agent" "quality_planning" m
  | p_relationship_agent =>
    agentLine "Relationship Agent" "relationship_mapping" m
  | p_error =>
    {| ld_message := Some (trim (group m 2));
       ld_type := Some (js "error");
       ld_level := Some (js "error");
       ld_step := None; ld_progress := None; ld_agent := None;
       ld_status := None; ld_details := None; ld_emoji := None |}
  | _ =>
    {| (* match[1] || match[2] || message *)
       ld_message :=
         Some (or_else (or_opt (nth_group m 1) (nth_group m 2)) message);
       ld_type := Some (js "system");
       ld_step := None; ld_progress := None; ld_agent := None;
       ld_status := None; ld_level := None; ld_details := None;
       ld_emoji := None |}
  end.

Definition parseText (message : jsstring) : LogData :=
  match firstMatch patterns message with
  | Some (key, m) => extract key m message
  | None =>
    (* { message: message, type: 'system', level: 'info' } *)
    {| ld_message := Some message;
       ld_type := Some (js "system");
       ld_level := Some (js "info");
       ld_step := None; ld_progress := None; ld_agent := None;
       ld_status := None; ld_details := None; ld_emoji := None |}
  end.

Definition normalize (lastMessage : WsMessage) : option LogData :=
  match msg_data lastMessage with
  | Some data =>
    if opt_is (msg_type lastMessage) (js "generation_update")
    then Some data
    else if truthy (ld_message data)
    then Some (parseText (or_else (ld_message data) []))
    else None
  | None => None
  end.

Definition detectLogType (data : LogData) : jsstring :=
  if truthy (ld_type data) then or_else (ld_type data) []
  else
    let message := lower_or_empty (ld_message data) in
    let step := lower_or_empty (ld_step data) in
    if includes step (js "initialization")
       || includes message (js "initializing") then js "initialization"
    else if includes step (js "domain") || includes message (js "domain")
            || opt_is (ld_agent data) (js "Domain Expert")
    then js "domain_analysis"
    else if includes step (js "privacy") || includes message (js "privacy")
            || opt_is (ld_agent data) (js "Privacy Agent")
    then js "privacy_assessment"
    else if includes step (js "bias") || includes message (js "bias")
            || opt_is (ld_agent data) (js "Bias Detector")
    then js "bias_detection"
    else if includes step (js "relationship")
            || includes message (js "relationship")
            || opt_is (ld_agent data) (js "Relationship Agent")
    then js "relationship_mapping"
    else if includes step (js "quality") || includes message (js "quality")
            || opt_is (ld_agent data) (js "Quality Agent")
    then js "quality_planning"
    else if includes step (js "generation")
            || includes message (js "generating") then js "data_generation"
    else if includes step (js "validation")
            || includes message (js "validating")
    then js "quality_validation"
    else if includes step (js "assembly")
            || includes message (js "assembling") then js "final_assembly"
    else if includes step (js "completion")
            || includes message (js "completed") then js "completion"
    else if includes message (js "gemini")
            || opt_is (ld_agent data) (js "Gemini AI") then js "gemini"
    else if progress_is data (-1) || includes message (js "error")
            || includes message (js "failed") then js "error"
    else js "system".

Definition detectLogStatus (data : LogData) : Status :=
  if progress_is data 100 then s_completed
  else if progress_is data (-1) || opt_is (ld_level data) (js "error")
  then s_error
  else if progress_gt0 data then s_in_progress
  else if opt_is (ld_status data) (js "✅") then s_completed
  else if opt_is (ld_status data) (js "❌") then s_error
  else if opt_is (ld_status data) (js "⚠️") then s_warning
  else s_started.

Definition detectAgent (data : LogData) : jsstring :=
  if truthy (ld_agent data) then or_else (ld_agent data) []
  else
    let message := lower_or_empty (ld_message data) in
    if includes message (js "domain expert") then js "Domain Expert"
    else if includes message (js "privacy agent") then js "Privacy Agent"
    else if includes message (js "bias detector") then js "Bias Detector"
    else if includes message (js "quality agent") then js "Quality Agent"
    else if includes message (js "relationship agent")
    then js "Relationship Agent"
    else if includes message (js "gemini")
            || includes message (js "2.0 flash") then js "Gemini AI"
    else js "System".

Definition detectLevel (data : LogData) : jsstring :=
  if truthy (ld_level data) then or_else (ld_level data) []
  else if progress_is data (-1) || opt_is (ld_status data) (js "❌")
  then js "error"
  else if progress_is data 100 || opt_is (ld_status data) (js "✅")
  then js "success"
  else if opt_is (ld_status data) (js "⚠️") then js "warning"
  else js "info".

Definition newLog (env : Env) (lastMessage : WsMessage)
           (logData : LogData) : LogEntry :=
  {| id := (now env, rnd env);
     timestamp := now env;
     type := detectLogType logData;
     status := detectLogStatus logData;
     message := or_else (ld_message logData) (js "Processing...");
     agent := or_else (ld_agent logData) (detectAgent logData);
     progress := ld_progress logData;
     level := or_else (ld_level logData) (detectLevel logData);
     metadata :=
       {| md_emoji := ld_emoji logData;
          md_step := ld_step logData;
          md_raw_message :=
            match msg_data lastMessage with
            | Some data => ld_message data
            | None => None
            end |} |}.

(** *** System status poller *)

Record Backend : Type := mkBackend {
  healthy : bool;
  lastCheck : option Z;
  responseTime : Z
}.

Inductive GeminiStatus : Type := online | offline | starting | gs_error.

Record Gemini : Type := mkGemini {
  gemini_status : GeminiStatus;
  model : jsstring;
  tokensUsed : option Z
}.

Record Agents : Type := mkAgents {
  active : bool;
  total : Z;
  operational : Z;
  currentAgent : option jsstring
}.

Record Websockets : Type := mkWebsockets {
  connected : bool;
  ws_status : jsstring
}.

Record SystemStatus : Type := mkSystemStatus {
  backend : Backend;
  gemini : Gemini;
  agents : Agents;
  websockets : Websockets
}.

Record HealthResponse : Type := mkHealthResponse {
  hr_healthy : bool;
  hr_gemini_status : option jsstring;
  hr_gemini_model : option jsstring;
  hr_gemini_tokens_used : option Z;
  hr_agents : option jsstring;
  hr_websockets : option jsstring
}.

Inductive Probe : Type :=
| Resolved (healthResponse : HealthResponse)
           (startTime endTime checkedAt : Z)
| Rejected (checkedAt : Z).

Definition checkSystemStatus (isConnected : bool) (probe : Probe)
           (prev : SystemStatus) : SystemStatus :=
  match probe with
  | Resolved healthResponse startTime endTime checkedAt =>
    (* setSystemStatus(prev => ({ ...prev, backend, gemini, agents,
                                  websockets })) *)
    {| backend :=
         {| healthy := hr_healthy healthResponse;
            lastCheck := Some checkedAt;
            responseTime := endTime - startTime |};
       gemini :=
         {| gemini_status :=
              if opt_is (hr_gemini_status healthResponse) (js "ready")
              then online
              else if opt_is (hr_gemini_status healthResponse)
                             (js "starting")
              then starting else offline;
            model := or_else (hr_gemini_model healthResponse)
                             (js "gemini-2.0-flash-exp");
            tokensUsed := hr_gemini_tokens_used healthResponse |};
       agents :=
         {| active := opt_is (hr_agents healthResponse) (js "active");
            total := 5;
            operational :=
              if opt_is (hr_agents healthResponse) (js "active")
              then 5 else 0;
            currentAgent := None |};
       websockets :=
         {| connected := isConnected;
            ws_status := or_else (hr_websockets healthResponse)
                                 (js "unknown") |} |}
  | Rejected checkedAt =>
    {| backend := {| healthy := false; lastCheck := Some checkedAt;
                     responseTime := 0 |};
       gemini := gemini prev;
       agents := agents prev;
       websockets := websockets prev |}
  end.

End RealTime.

(* ===================================================================== *)
(** ** EnhancedRealTimeMonitor: the filter over its log                    *)
(* ===================================================================== *)

Module Enhanced.

(** The fields of [AgentLog] the filter and the buffer read; [type],
    [status] and [level] are kept as the strings they are at run time. *)
Record AgentLog : Type := mkAgentLog {
  id : jsstring;
  timestamp : Z;
  type : jsstring;
  status : jsstring;
  message : jsstring;
  agent : jsstring;
  progress : option Z;
  level : jsstring
}.

Definition filteredLogs (searchTerm selectedAgent : jsstring)
           (logs : list AgentLog) : list AgentLog :=
  filter
    (fun log =>
       let matchesSearch :=
         str_eqb searchTerm []
         || includes (toLowerCase (message log)) (toLowerCase searchTerm)
         || includes (toLowerCase (agent log)) (toLowerCase searchTerm) in
       let matchesAgent :=
         str_eqb selectedAgent (js "all")
         || str_eqb (agent log) selectedAgent in
       matchesSearch && matchesAgent)
    logs.

End Enhanced.

(* ===================================================================== *)
(** ** Vocabulary of the statements                                        *)
(* ===================================================================== *)

Local Close Scope string_scope.

Module Props.

(** The buffer after the records [rs] were pushed, oldest first, into an
    empty buffer of capacity [cap]. *)
Definition appendAll {Log : Type} (cap : Z) (rs : list Log) : list Log :=
  fold_left (fun prev a => pushActivity cap a prev) rs [].

(** [t] occurs in [s] as a contiguous run. *)
Definition Substring (t s : jsstring) : Prop :=
  exists pre post, s = pre ++ t ++ post.

(** Substring test that ignores letter case: both sides lower-cased. *)
Definition SubstringNoCase (t s : jsstring) : Prop :=
  Substring (toLowerCase t) (toLowerCase s).

(** [out] keeps, in order, exactly the elements of [l] that satisfy [P]. *)
Inductive Projection {A : Type} (P : A -> Prop) : list A -> list A -> Prop :=
| proj_nil : Projection P [] []
| proj_keep x l out : P x -> Projection P l out ->
                      Projection P (x :: l) (x :: out)
| proj_drop x l out : ~ P x -> Projection P l out ->
                      Projection P (x :: l) out.

(** The three criteria of the unified monitor's projection, in the words
    of the specification. *)
Definition passes (levelFilter agentFilter searchText : jsstring)
           (r : Unified.ActivityLog) : Prop :=
  (levelFilter = js "all" \/ Unified.level r = Some levelFilter)
  /\ (agentFilter = js "all" \/ Unified.agent r = Some agentFilter)
  /\ (searchText = []
      \/ SubstringNoCase searchText (Unified.message r)
      \/ exists a, Unified.agent r = Some a /\ SubstringNoCase searchText a).

(** The two criteria of the enhanced monitor's projection. *)
Definition passesEnhanced (agentFilter searchText : jsstring)
           (r : Enhanced.AgentLog) : Prop :=
  (agentFilter = js "all" \/ Enhanced.agent r = agentFilter)
  /\ (searchText = []
      \/ SubstringNoCase searchText (Enhanced.message r)
      \/ SubstringNoCase searchText (Enhanced.agent r)).

(** A free-text event carrying the line [text]. *)
Definition textEvent (text : string) : WsMessage :=
  {| msg_type := Some (js "raw_message");
     msg_data :=
       Some {| ld_message := Some (js text);
               ld_step := None; ld_progress := None; ld_agent := None;
               ld_status := None; ld_level := None; ld_type := None;
               ld_details := None; ld_emoji := None |} |}.

(** A structured event carrying only a progress value and a message. *)
Definition progressEvent (p : Z) (text : string) : WsMessage :=
  {| msg_type := Some (js "generation_update");
     msg_data :=
       Some {| ld_message := Some (js text);
               ld_progress := Some p;
               ld_step := None; ld_agent := None;
               ld_status := None; ld_level := None; ld_type := None;
               ld_details := None; ld_emoji := None |} |}.

(** The records the unified monitor builds for the received events [ems],
    oldest first; an event that normalizes to [null] builds none. *)
Definition recordsOf (ems : list (Env * WsMessage))
  : list Unified.ActivityLog :=
  flat_map
    (fun em =>
       match Unified.normalize (snd em) with
       | Some d => [Unified.newActivity (fst em) (snd em) d]
       | None => []
       end)
    ems.

(** The trace in which the events [ems] arrive one after the other. *)
Definition arrivals (ems : list (Env * WsMessage))
  : list (Env * Unified.Event) :=
  map (fun em => (fst em, Unified.Receive (snd em))) ems.

(** A line of the bracketed progress form
    [\[<digits>%\]<spaces><step>:<spaces><rest>]. *)
Definition bracketedLine (digits ws1 step ws2 rest : jsstring) : jsstring :=
  [91%N] ++ digits ++ [37%N; 93%N] ++ ws1 ++ step ++ [58%N] ++ ws2 ++ rest.

(** Clock and random readings for the examples. *)
Definition env0 : Env := {| now := 0; rnd := [] |}.

(** No pattern of the table matches the message. *)
Definition noneMatches {K : Type} (table : list (K * regex))
           (message : jsstring) : Prop :=
  Forall (fun kp => match_ (snd kp) message = None) table.

(** An event whose fields have the declared types, as it is delivered. *)
Definition deliverData (d : LogData) : RawData :=
  {| rd_message := option_map JString (ld_message d);
     rd_step := option_map JString (ld_step d);
     rd_type := option_map JString (ld_type d);
     rd_progress := ld_progress d; rd_agent := ld_agent d;
     rd_status := ld_status d; rd_level := ld_level d;
     rd_details := ld_details d; rd_emoji := ld_emoji d |}.

Definition deliver (lm : WsMessage) : RawMessage :=
  {| raw_type := msg_type lm;
     raw_data := option_map deliverData (msg_data lm) |}.

(** A property that is present, not [null] and not a string. *)
Definition notAString (v : option json) : Prop :=
  match v with
  | None | Some JNull | Some (JString _) => False
  | Some _ => True
  end.

(** The delivered events that cannot be parsed: a structured event whose
    message, step or type is not a string, and an event of another type
    whose message is truthy and not a string. *)
Definition malformed (lm : RawMessage) : Prop :=
  exists data,
    raw_data lm = Some data
    /\ if opt_is (raw_type lm) (js "generation_update")
       then notAString (rd_message data) \/ notAString (rd_step data)
            \/ notAString (rd_type data)
       else truthyJson (rd_message data) = true
            /\ notAString (rd_message data).

(** An event whose message is the number 404. *)
Definition numberEvent (type : string) : RawMessage :=
  {| raw_type := Some (js type);
     raw_data :=
       Some {| rd_message := Some (JNumber 404);
               rd_step := None; rd_type := None; rd_progress := None;
               rd_agent := None; rd_status := None; rd_level := None;
               rd_details := None; rd_emoji := None |} |}.

(** Two code units that are equal, or the two cases of one letter A-Z. *)
Definition sameLetter (x y : N) : Prop :=
  x = y
  \/ ((65 <= x <= 90)%N /\ y = (x + 32)%N)
  \/ ((65 <= y <= 90)%N /\ x = (y + 32)%N).

(** Equal up to the case of the letters A-Z. *)
Definition sameIgnoringCase (s t : jsstring) : Prop := Forall2 sameLetter s t.

(** [s] has a contiguous part that is [t] up to the case of the letters
    A-Z. *)
Definition ContainsIgnoringCase (t s : jsstring) : Prop :=
  exists pre part post, s = pre ++ part ++ post /\ sameIgnoringCase part t.

(** Text without surrogates and without the capital sigma, the one letter
    whose lower case depends on its neighbours. *)
Definition plain (s : jsstring) : Prop :=
  Forall (fun c => c <> 931%N /\ (c < 55296 \/ 57343 < c)%N) s.

Definition asciiOnly (s : jsstring) : Prop := Forall (fun c => (c < 128)%N) s.

(** The lower case of one code point, in code units, where it does not
    depend on the neighbours. *)
Definition lowerUnits (c : N) : jsstring := flat_map codeUnits (lowerPoint c).

(** Group [i] takes part in every match of the pattern. *)
Fixpoint binds (i : nat) (r : regex) : bool :=
  match r with
  | Empty | Class _ | Star _ => false
  | Seq r1 r2 => binds i r1 || binds i r2
  | Alt r1 r2 => binds i r1 && binds i r2
  | Group j r1 => Nat.eqb i j || binds i r1
  end.

End Props.

Import Props.

Unset Implicit Arguments.

(* ===================================================================== *)
(** ** Strings and arrays                                                  *)
(* ===================================================================== *)

Lemma str_eqb_eq (a b : jsstring) : str_eqb a b = true <-> a = b.
Proof.
  revert b; induction a as [|x a IH]; intros [|y b]; simpl;
    try (split; [discriminate | discriminate]); try tauto.
  rewrite andb_true_iff, N.eqb_eq, IH.
  split; [intros [-> ->]; reflexivity | intros H; inversion H; auto].
Qed.

Lemma str_eqb_refl (a : jsstring) : str_eqb a a = true.
Proof. apply str_eqb_eq; reflexivity. Qed.

Lemma opt_is_eq (x : option jsstring) (s : jsstring) :
  opt_is x s = true <-> x = Some s.
Proof.
  destruct x as [t|]; simpl.
  - rewrite str_eqb_eq. split; [intros ->; reflexivity | congruence].
  - split; discriminate.
Qed.

Lemma startsWith_prefix (s t : jsstring) :
  startsWith s t = true <-> exists post, s = t ++ post.
Proof.
  revert s; induction t as [|y t IH]; intros s; simpl.
  - split; [exists s; reflexivity | reflexivity].
  - destruct s as [|x s].
    + split; [discriminate | intros [post H]; discriminate].
    + rewrite andb_true_iff, N.eqb_eq, IH. split.
      * intros [-> [post ->]]. exists post. reflexivity.
      * intros [post H]. inversion H; subst. split; eauto.
Qed.

Lemma includes_Substring (s t : jsstring) :
  includes s t = true <-> Substring t s.
Proof.
  unfold Substring. induction s as [|x s IH]; simpl.
  - rewrite orb_false_r, startsWith_prefix. split.
    + intros [post H]. exists [], post. exact H.
    + intros [pre [post H]]. destruct pre; [eauto|discriminate].
  - rewrite orb_true_iff, startsWith_prefix, IH. split.
    + intros [[post H] | [pre [post H]]].
      * exists [], post. exact H.
      * exists (x :: pre), post. simpl. congruence.
    + intros [[|y pre] [post H]].
      * left. exists post. exact H.
      * right. simpl in H. inversion H; subst. eauto.
Qed.

(** [a.slice(0, e)] with [e >= 0] keeps the first [e] elements. *)
Lemma slice_0_firstn {A : Type} (a : list A) (e : Z) :
  0 <= e -> slice a 0 e = firstn (Z.to_nat e) a.
Proof.
  intros He. unfold slice, clampIndex.
  assert (H0 : (0 <? 0) = false) by reflexivity. rewrite H0.
  assert (He' : (e <? 0) = false) by (apply Z.ltb_ge; exact He). rewrite He'.
  assert (Hk : Z.min 0 (Z.of_nat (length a)) = 0) by lia. rewrite Hk.
  simpl skipn. rewrite Z.sub_0_r.
  destruct (Z.le_ge_cases e (Z.of_nat (length a))) as [Hle|Hge].
  - rewrite Z.min_l by exact Hle. reflexivity.
  - rewrite Z.min_r by lia. rewrite Nat2Z.id.
    rewrite firstn_all. symmetry. apply firstn_all2. lia.
Qed.

(** [a.slice(0, -1)] drops the last element. *)
Lemma slice_0_minus_1 {A : Type} (a : list A) :
  slice a 0 (-1) = firstn (length a - 1) a.
Proof.
  unfold slice, clampIndex.
  assert (H0 : (0 <? 0) = false) by reflexivity. rewrite H0.
  assert (H1 : (-1 <? 0) = true) by reflexivity. rewrite H1.
  assert (Hk : Z.min 0 (Z.of_nat (length a)) = 0) by lia. rewrite Hk.
  simpl skipn. f_equal. lia.
Qed.

(* ===================================================================== *)
(** ** The matcher finds exactly the words of the pattern                  *)
(* ===================================================================== *)

Section Matcher.

Context {R : Type}.

Lemma star_loop_sound (body : matcher R) (r : regex) :
  (forall s c k x,
      body s c k = Some x ->
      exists s1 s2 c', s = s1 ++ s2 /\ Lang r s1 /\ k s2 c' = Some x) ->
  forall fuel s c k x,
    star_loop body k fuel s c = Some x ->
    exists s1 s2 c', s = s1 ++ s2 /\ Lang (Star r) s1 /\ k s2 c' = Some x.
Proof.
  intros Hbody. induction fuel as [|fuel IH]; simpl; intros s c k x H.
  - exists [], s, c. repeat split; [constructor | exact H].
  - destruct (body s c _) as [y|] eqn:Hb.
    + inversion H; subst y.
      apply Hbody in Hb. destruct Hb as (a & b & c' & Hs & Ha & Hk).
      destruct (length b <? length s)%nat; [|discriminate].
      apply IH in Hk. destruct Hk as (s1 & s2 & c'' & Hb & Hs1 & Hk).
      exists (a ++ s1), s2, c''. subst. rewrite app_assoc.
      repeat split; [constructor; assumption | exact Hk].
    + exists [], s, c. repeat split; [constructor | exact H].
Qed.

Lemma star_loop_complete (body : matcher R) (r : regex) :
  (forall s1 s2 c k,
      Lang r s1 -> (forall c', k s2 c' <> None) ->
      body (s1 ++ s2) c k <> None) ->
  forall fuel s1 s2 c k,
    Lang (Star r) s1 ->
    (length (s1 ++ s2) <= fuel)%nat ->
    (forall c', k s2 c' <> None) ->
    star_loop body k fuel (s1 ++ s2) c <> None.
Proof.
  intros Hbody. induction fuel as [|fuel IH]; intros s1 s2 c k Hs Hlen Hk.
  - destruct s1; [|simpl in Hlen; lia]. simpl. apply Hk.
  - simpl. destruct (body (s1 ++ s2) c _) as [y|] eqn:Hb; [discriminate|].
    assert (Hhead : s1 = [] \/
                    exists a b, a <> [] /\ s1 = a ++ b
                                /\ Lang r a /\ Lang (Star r) b).
    { clear - Hs. remember (Star r) as r' eqn:E.
      induction Hs as [| | | | | |r0 a b Ha _ Hb IHb|]; try discriminate.
      - left. reflexivity.
      - inversion E; subst r0. destruct a as [|x a].
        + simpl. apply IHb. reflexivity.
        + right. exists (x :: a), b.
          repeat split; [discriminate | assumption | assumption]. }
    destruct Hhead as [-> | (a & b & Hne & -> & Ha & HLb)].
    + simpl. apply Hk.
    + exfalso. revert Hb. rewrite <- app_assoc. apply Hbody; [exact Ha|].
      intros c'. rewrite <- app_assoc in Hlen.
      assert (Hlt : (length (b ++ s2) <? length (a ++ b ++ s2))%nat = true).
      { apply Nat.ltb_lt. rewrite (length_app a). destruct a; [congruence|].
        simpl. lia. }
      rewrite Hlt. apply IH; [exact HLb | | exact Hk].
      rewrite (length_app a) in Hlen. destruct a; [congruence|].
      simpl in Hlen. lia.
Qed.

End Matcher.

(** Soundness: a match splits the input into a word of the pattern and a
    rest on which the continuation succeeded. *)
Lemma rmatch_sound (r : regex) :
  forall (R : Type) s c (k : jsstring -> captures -> option R) x,
    rmatch r s c k = Some x ->
    exists s1 s2 c', s = s1 ++ s2 /\ Lang r s1 /\ k s2 c' = Some x.
Proof.
  induction r as [|p|r1 IH1 r2 IH2|r1 IH1 r2 IH2|r IH|i r IH];
    intros R s c k x H; simpl in H.
  - exists [], s, c. repeat split; [constructor | exact H].
  - destruct s as [|y s]; [discriminate|].
    destruct (p y) eqn:Hp; [|discriminate].
    exists [y], s, c. repeat split; [constructor; exact Hp | exact H].
  - apply IH1 in H. destruct H as (a & b & c1 & -> & Ha & H).
    apply IH2 in H. destruct H as (a' & b' & c2 & -> & Ha' & H).
    exists (a ++ a'), b', c2. rewrite app_assoc.
    repeat split; [constructor; assumption | exact H].
  - destruct (rmatch r1 s c k) as [y|] eqn:H1.
    + inversion H; subst y. apply IH1 in H1.
      destruct H1 as (a & b & c' & -> & Ha & Hk).
      exists a, b, c'. repeat split; [apply L_alt_l; exact Ha | exact Hk].
    + apply IH2 in H. destruct H as (a & b & c' & -> & Ha & Hk).
      exists a, b, c'. repeat split; [apply L_alt_r; exact Ha | exact Hk].
  - apply (star_loop_sound _ r) in H; [exact H|].
    intros s0 c0 k0 x0. apply IH.
  - apply IH in H. destruct H as (a & b & c' & -> & Ha & Hk).
    eexists a, b, _. repeat split; [constructor; exact Ha | exact Hk].
Qed.

(** Completeness: when a prefix of the input is a word of the pattern and
    the continuation accepts the rest, the matcher finds a match. *)
Lemma rmatch_complete (r : regex) :
  forall (R : Type) s1 s2 c (k : jsstring -> captures -> option R),
    Lang r s1 -> (forall c', k s2 c' <> None) ->
    rmatch r (s1 ++ s2) c k <> None.
Proof.
  induction r as [|p|r1 IH1 r2 IH2|r1 IH1 r2 IH2|r IH|i r IH];
    intros R s1 s2 c k HL Hk; inversion HL; subst; simpl.
  - apply Hk.
  - match goal with H : p _ = true |- _ => rewrite H end. apply Hk.
  - rewrite <- app_assoc. apply IH1; [assumption|].
    intros c'. apply IH2; assumption.
  - destruct (rmatch r1 (s1 ++ s2) c k) as [y|] eqn:H1; [discriminate|].
    exfalso. revert H1. apply IH1; assumption.
  - destruct (rmatch r1 (s1 ++ s2) c k) as [y|] eqn:H1; [discriminate|].
    apply IH2; assumption.
  - apply (star_loop_complete
             (fun s0 c0 k0 => rmatch r s0 c0 k0) r
             (fun a b c0 k0 => IH R a b c0 k0)
             (length s2) [] s2 c k); [constructor | simpl; lia | exact Hk].
  - apply (star_loop_complete _ r); [|exact HL|lia|exact Hk].
    intros a b c0 k0. apply IH.
  - apply IH; [assumption|]. intros c'. apply Hk.
Qed.

Lemma match_unfold (r : regex) (s : jsstring) :
  match_ r s
  = match match_here r s with
    | Some m => Some m
    | None => match s with [] => None | _ :: s' => match_ r s' end
    end.
Proof. destruct s; reflexivity. Qed.

Lemma match_here_sound (r : regex) (s : jsstring) (m : match_array) :
  match_here r s = Some m ->
  exists post, s = whole m ++ post /\ Lang r (whole m).
Proof.
  unfold match_here. intros H. apply rmatch_sound in H.
  destruct H as (a & b & c' & -> & Ha & Hk). inversion Hk; subst m. simpl.
  rewrite length_app, Nat.add_sub, firstn_app, firstn_all, Nat.sub_diag.
  simpl. rewrite app_nil_r. exists b. split; [reflexivity | exact Ha].
Qed.

(** [s.match(r)] returns a part of [s] that is a word of [r]. *)
Lemma match_sound (r : regex) (s : jsstring) (m : match_array) :
  match_ r s = Some m ->
  exists pre post, s = pre ++ whole m ++ post /\ Lang r (whole m).
Proof.
  induction s as [|x s IH]; rewrite match_unfold.
  - destruct (match_here r []) as [m'|] eqn:Hh; [|discriminate].
    intros H; inversion H; subst m'. apply match_here_sound in Hh.
    destruct Hh as (post & Hs & HL). exists [], post. auto.
  - destruct (match_here r (x :: s)) as [m'|] eqn:Hh.
    + intros H; inversion H; subst m'. apply match_here_sound in Hh.
      destruct Hh as (post & Hs & HL). exists [], post. auto.
    + intros H. apply IH in H. destruct H as (pre & post & -> & HL).
      exists (x :: pre), post. auto.
Qed.

(** [s.match(r)] is [null] exactly when no part of [s] is a word of [r]. *)
Lemma match_none_iff (r : regex) (s : jsstring) :
  match_ r s = None <-> ~ Occurs r s.
Proof.
  split.
  - intros Hnone (pre & w & post & -> & HL). revert Hnone.
    induction pre as [|x pre IH]; rewrite match_unfold.
    + destruct (match_here r ([] ++ w ++ post)) as [m|] eqn:Hh;
        [discriminate|].
      exfalso. revert Hh. unfold match_here. simpl.
      apply rmatch_complete; [exact HL | discriminate].
    + destruct (match_here r ((x :: pre) ++ w ++ post)); [discriminate|].
      simpl. exact IH.
  - intros Hno. destruct (match_ r s) as [m|] eqn:Hm; [|reflexivity].
    exfalso. apply Hno. apply match_sound in Hm.
    destruct Hm as (pre & post & Hs & HL). exists pre, (whole m), post. auto.
Qed.

(* ===================================================================== *)
(** ** The bounded buffer                                                  *)
(* ===================================================================== *)

Section Buffer.

Context {Log : Type}.
Variable cap : Z.
Hypothesis cap_pos : 1 <= cap.

Lemma pushActivity_firstn (a : Log) (prev : list Log) :
  pushActivity cap a prev = a :: firstn (Z.to_nat (cap - 1)) prev.
Proof.
  unfold pushActivity. rewrite slice_0_firstn by lia. reflexivity.
Qed.

Lemma pushActivity_length (a : Log) (prev : list Log) :
  Z.of_nat (length (pushActivity cap a prev)) <= cap.
Proof.
  rewrite pushActivity_firstn. simpl length. rewrite length_firstn. lia.
Qed.

Lemma appendAll_snoc (rs : list Log) (r : Log) :
  appendAll cap (rs ++ [r]) = pushActivity cap r (appendAll cap rs).
Proof. unfold appendAll. rewrite fold_left_app. reflexivity. Qed.

Lemma appendAll_newest_first (rs : list Log) :
  appendAll cap rs = firstn (Nat.min (length rs) (Z.to_nat cap)) (rev rs).
Proof.
  induction rs as [|r rs IH] using rev_ind.
  - reflexivity.
  - rewrite appendAll_snoc, pushActivity_firstn, IH, firstn_firstn.
    rewrite rev_app_distr, length_app. simpl rev. simpl app. simpl length.
    replace (Nat.min (length rs + 1) (Z.to_nat cap))
      with (S (Nat.min (Z.to_nat (cap - 1))
                       (Nat.min (length rs) (Z.to_nat cap)))) by lia.
    reflexivity.
Qed.

End Buffer.

(** C1 (as amended).  With a capacity [cap >= 1], after any sequence [rs] of
    accepted records pushed into an empty buffer the buffer holds at most
    [cap] records, and they are the most recent [min (length rs) cap] ones,
    newest first. *)
Theorem buffer_bounded_newest_first (Log : Type) (cap : Z) (rs : list Log) :
  1 <= cap ->
  Z.of_nat (length (appendAll cap rs)) <= cap
  /\ appendAll cap rs
     = firstn (Nat.min (length rs) (Z.to_nat cap)) (rev rs).
Proof.
  intros Hcap. split.
  - rewrite (appendAll_newest_first cap Hcap), length_firstn. lia.
  - apply appendAll_newest_first. exact Hcap.
Qed.

Lemma buffer_bounded_newest_first_witness :
  1 <= 2
  /\ Z.of_nat (length (appendAll 2 [10; 20; 30])) <= 2
  /\ appendAll 2 [10; 20; 30] = [30; 20].
Proof.
  split; [lia|].
  exact (buffer_bounded_newest_first Z 2 [10; 20; 30] ltac:(lia)).
Defined.

(** The bound holds along every run of the unified monitor, whatever the
    events are. *)
Lemma unified_step_bound (maxLogs : Z) (env : Env) (e : Unified.Event)
      (s : Unified.State) :
  1 <= maxLogs ->
  Z.of_nat (length (Unified.activities s)) <= maxLogs ->
  Z.of_nat (length (Unified.activities (Unified.step maxLogs env e s)))
  <= maxLogs.
Proof.
  intros Hcap Hs.
  assert (Hrun : forall (hook : option WsMessage) (s0 : Unified.State),
             Z.of_nat (length (Unified.activities s0)) <= maxLogs ->
             Z.of_nat (length (Unified.activities
                                 (Unified.runEffect maxLogs env hook s0)))
             <= maxLogs).
  { intros hook s0 H0. unfold Unified.runEffect, Unified.effect.
    destruct hook as [lm|]; [|exact H0].
    destruct (Unified.isPaused s0); [exact H0|].
    destruct (Unified.normalize lm) as [d|]; [|exact H0].
    destruct (ld_progress d) as [p|]; [destruct (0 <=? p)|];
      cbn [fold_left Unified.call Unified.activities];
      apply pushActivity_length; exact Hcap. }
  destruct e; simpl; try (apply Hrun; exact Hs). lia.
Qed.

Lemma unified_run_bound (maxLogs : Z) (trace : list (Env * Unified.Event)) :
  1 <= maxLogs ->
  Z.of_nat (length (Unified.activities
                      (Unified.run maxLogs trace Unified.initial)))
  <= maxLogs.
Proof.
  intros Hcap.
  assert (H : forall s, Z.of_nat (length (Unified.activities s)) <= maxLogs ->
              Z.of_nat (length (Unified.activities
                                  (Unified.run maxLogs trace s))) <= maxLogs).
  { induction trace as [|[env e] trace IH]; intros s Hs; simpl.
    - exact Hs.
    - apply IH. apply unified_step_bound; assumption. }
  apply H. simpl. lia.
Qed.

(** The simple monitor keeps at most 50 records. *)
Lemma simple_run_bound (trace : list (Env * Simple.Event)) :
  (length (Simple.activities (Simple.run trace Simple.initial)) <= 50)%nat.
Proof.
  assert (H : forall s, Z.of_nat (length (Simple.activities s)) <= 50 ->
              Z.of_nat (length (Simple.activities (Simple.run trace s)))
              <= 50).
  { induction trace as [|[env e] trace IH]; intros s Hs; simpl.
    - exact Hs.
    - apply IH.
      assert (Hrun : forall (hook : option WsMessage) (s0 : Simple.State),
                 Z.of_nat (length (Simple.activities s0)) <= 50 ->
                 Z.of_nat (length (Simple.activities
                                     (Simple.runEffect env hook s0))) <= 50).
      { intros hook s0 H0. unfold Simple.runEffect, Simple.effect.
        destruct hook as [lm|]; [|exact H0].
        destruct (Simple.isPaused s0); [exact H0|].
        destruct (Simple.normalize lm) as [d|]; [|exact H0].
        destruct (ld_progress d) as [p|];
          cbn [fold_left Simple.call Simple.activities];
          apply pushActivity_length; lia. }
      destruct e; simpl; try (apply Hrun; exact Hs). lia. }
  apply Nat2Z.inj_le. apply H. simpl. lia.
Qed.

(** A run of arrivals, the gate open, pushes the records of the events in
    arrival order. *)
Lemma unified_arrivals_push (maxLogs : Z) (ems : list (Env * WsMessage)) :
  forall s : Unified.State,
    Unified.isPaused s = false ->
    Unified.activities (Unified.run maxLogs (arrivals ems) s)
    = fold_left (fun prev a => pushActivity maxLogs a prev) (recordsOf ems)
                (Unified.activities s).
Proof.
  induction ems as [|[env m] ems IH]; intros s Hp; [reflexivity|].
  simpl arrivals. cbn [Unified.run]. unfold recordsOf. simpl flat_map.
  rewrite fold_left_app. fold (recordsOf ems).
  assert (Hstep : Unified.isPaused
                    (Unified.step maxLogs env (Unified.Receive m) s) = false
                  /\ Unified.activities
                       (Unified.step maxLogs env (Unified.Receive m) s)
                     = fold_left (fun prev a => pushActivity maxLogs a prev)
                         match Unified.normalize m with
                         | Some d => [Unified.newActivity env m d]
                         | None => []
                         end (Unified.activities s)).
  { simpl. unfold Unified.runEffect, Unified.effect. simpl. rewrite Hp.
    destruct (Unified.normalize m) as [d|]; [|auto].
    destruct (ld_progress d) as [p|]; [destruct (0 <=? p)|]; simpl; auto. }
  destruct Hstep as [Hp' Hacts]. rewrite IH by exact Hp'.
  rewrite Hacts. reflexivity.
Qed.

(** In the monitor itself: after any arrivals into the freshly mounted
    component with [maxLogs >= 1], the log is the newest [maxLogs] records,
    newest first. *)
Lemma unified_log_newest_first (maxLogs : Z) (ems : list (Env * WsMessage)) :
  1 <= maxLogs ->
  Unified.activities (Unified.run maxLogs (arrivals ems) Unified.initial)
  = firstn (Nat.min (length (recordsOf ems)) (Z.to_nat maxLogs))
           (rev (recordsOf ems)).
Proof.
  intros Hcap. rewrite unified_arrivals_push by reflexivity.
  apply (appendAll_newest_first maxLogs Hcap).
Qed.

(** C1, the degenerate capacity.  With [maxLogs = 0] the updater computes
    [prev.slice(0, -1)], and the first accepted record already exceeds the
    capacity. *)
Lemma capacity_zero_holds_one :
  let s := Unified.step 0 env0 (Unified.Receive (textEvent "hello"))
                        Unified.initial in
  length (Unified.activities s) = 1%nat
  /\ ~ Z.of_nat (length (Unified.activities s)) <= 0.
Proof. vm_compute. split; [reflexivity | intros H; apply H; reflexivity]. Qed.

(* ===================================================================== *)
(** ** Pattern precedence                                                  *)
(* ===================================================================== *)

Section Scan.

Context {K : Type}.
Variable message : jsstring.

(** The loop stops at the first entry whose pattern matches. *)
Lemma firstMatch_first (pre post : list (K * regex)) (key : K)
      (pattern : regex) (m : match_array) :
  noneMatches pre message ->
  match_ pattern message = Some m ->
  firstMatch (pre ++ (key, pattern) :: post) message = Some (key, m).
Proof.
  intros Hpre Hm. induction Hpre as [|[k p] pre Hk Hpre IH]; simpl.
  - rewrite Hm. reflexivity.
  - simpl in Hk. rewrite Hk. exact IH.
Qed.

Lemma firstMatch_none (table : list (K * regex)) :
  noneMatches table message <-> firstMatch table message = None.
Proof.
  induction table as [|[k p] table IH]; simpl.
  - split; [reflexivity | constructor].
  - destruct (match_ p message) as [m|] eqn:Hp.
    + split; [|discriminate]. intros H. inversion H; subst.
      simpl in *. congruence.
    + rewrite <- IH. split.
      * intros H. inversion H; assumption.
      * intros H. constructor; assumption.
Qed.

(** Conversely, a result of the loop names the first matching entry. *)
Lemma firstMatch_inv (table : list (K * regex)) (key : K)
      (m : match_array) :
  firstMatch table message = Some (key, m) ->
  exists pre pattern post,
    table = pre ++ (key, pattern) :: post
    /\ noneMatches pre message
    /\ match_ pattern message = Some m.
Proof.
  induction table as [|[k p] table IH]; simpl; [discriminate|].
  destruct (match_ p message) as [m'|] eqn:Hp.
  - intros H. inversion H; subst.
    exists [], p, table. repeat split; [constructor | exact Hp].
  - intros H. destruct (IH H) as (pre & pattern & post & -> & Hpre & Hm).
    exists ((k, p) :: pre), pattern, post.
    repeat split; [constructor; assumption | exact Hm].
Qed.

End Scan.

(** C2.  Free text is normalized by the first pattern of the table that
    matches, whatever later patterns would do, in both monitors that carry a
    table; a message no pattern matches keeps its whole text.  The line
    "[40%] Domain Analysis: scanning columns" is read by the bracketed
    progress pattern: progress 40, step "Domain Analysis", message
    "scanning columns", and no agent. *)
Theorem first_matching_pattern_applies :
  (forall message pre key pattern post m,
      Unified.patterns = pre ++ (key, pattern) :: post ->
      noneMatches pre message ->
      match_ pattern message = Some m ->
      Unified.parseText message = Unified.extract key m message)
  /\ (forall message pre key pattern post m,
         RealTime.patterns = pre ++ (key, pattern) :: post ->
         noneMatches pre message ->
         match_ pattern message = Some m ->
         RealTime.parseText message = RealTime.extract key m message)
  /\ (forall message,
         noneMatches Unified.patterns message ->
         ld_message (Unified.parseText message) = Some message)
  /\ (let d := Unified.parseText
                 (js "[40%] Domain Analysis: scanning columns") in
      ld_progress d = Some 40
      /\ ld_step d = Some (js "Domain Analysis")
      /\ ld_message d = Some (js "scanning columns")
      /\ ld_agent d = None
      /\ ld_type d = Some (js "progress"))
  /\ (let d := RealTime.parseText
                 (js "[40%] Domain Analysis: scanning columns") in
      ld_progress d = Some 40
      /\ ld_step d = Some (js "Domain Analysis")
      /\ ld_message d = Some (js "scanning columns")
      /\ ld_agent d = None
      /\ ld_type d = Some (js "progress")).
Proof.
  split; [|split; [|split; [|split]]].
  - intros message pre key pattern post m Htable Hpre Hm.
    unfold Unified.parseText. rewrite Htable.
    rewrite (firstMatch_first message pre post key pattern m Hpre Hm).
    reflexivity.
  - intros message pre key pattern post m Htable Hpre Hm.
    unfold RealTime.parseText. rewrite Htable.
    rewrite (firstMatch_first message pre post key pattern m Hpre Hm).
    reflexivity.
  - intros message Hnone. unfold Unified.parseText.
    apply firstMatch_none in Hnone. rewrite Hnone. reflexivity.
  - vm_compute. repeat split.
  - vm_compute. repeat split.
Qed.

Lemma first_matching_pattern_applies_witness :
  Unified.parseText (js "Error: connection refused")
  = Unified.extract Unified.k_error
      {| whole := js "Error: connection refused";
         groups := [(2%nat, js "connection refused"); (1%nat, js "Error")] |}
      (js "Error: connection refused").
Proof.
  refine (proj1 first_matching_pattern_applies
            (js "Error: connection refused")
            [(Unified.k_progress, Unified.re_progress);
             (Unified.k_agent, Unified.re_agent);
             (Unified.k_gemini, Unified.re_gemini);
             (Unified.k_system, Unified.re_system)]
            Unified.k_error Unified.re_error
            [(Unified.k_completion, Unified.re_completion)]
            _ _ _ _).
  - reflexivity.
  - repeat constructor.
  - vm_compute. reflexivity.
Defined.

(** A line that the progress pattern and two later patterns of the
    [RealTime] table all match is still read by the progress pattern. *)
Lemma overlapping_patterns_example :
  let line := js "[40%] Privacy Agent: Error: x" in
  (exists m, match_ (RealTime.labelled "Privacy" "Agent") line = Some m)
  /\ (exists m, match_ Unified.re_error line = Some m)
  /\ ld_type (RealTime.parseText line) = Some (js "progress")
  /\ ld_type (Unified.parseText line) = Some (js "progress")
  /\ ld_progress (RealTime.parseText line) = Some 40.
Proof.
  vm_compute. repeat split; eexists; reflexivity.
Qed.

(** A table entry does not match exactly when no part of the message is a
    word of its pattern. *)
Lemma noneMatches_iff {K : Type} (table : list (K * regex))
      (message : jsstring) :
  noneMatches table message
  <-> Forall (fun kp => ~ Occurs (snd kp) message) table.
Proof.
  unfold noneMatches. rewrite !Forall_forall.
  split; intros H kp Hin; apply match_none_iff; apply H; exact Hin.
Qed.

Lemma Lang_star_class (p : N -> bool) (s : jsstring) :
  forallb p s = true -> Lang (Star (Class p)) s.
Proof.
  induction s as [|x s IH]; simpl; intros H.
  - constructor.
  - apply andb_true_iff in H. destruct H as [Hx Hs].
    change (x :: s) with ([x] ++ s).
    apply L_star_more; [constructor; exact Hx | auto].
Qed.

Lemma Lang_plus_class (p : N -> bool) (s : jsstring) :
  s <> [] -> forallb p s = true -> Lang (Plus (Class p)) s.
Proof.
  destruct s as [|x s]; [congruence|]. simpl. intros _ H.
  apply andb_true_iff in H. destruct H as [Hx Hs].
  change (x :: s) with ([x] ++ s).
  apply L_seq; [constructor; exact Hx | apply Lang_star_class; exact Hs].
Qed.

(** Every line of the bracketed progress form is a word of the first
    pattern. *)
Lemma bracketedLine_Lang (digits ws1 step ws2 rest : jsstring) :
  digits <> [] -> forallb isDigit digits = true ->
  forallb isSpace ws1 = true ->
  step <> [] -> forallb (fun c => negb (N.eqb c 58)) step = true ->
  forallb isSpace ws2 = true ->
  rest <> [] -> forallb (fun c => negb (isLineTerminator c)) rest = true ->
  Lang Unified.re_progress (bracketedLine digits ws1 step ws2 rest).
Proof.
  intros Hd1 Hd2 Hw1 Hs1 Hs2 Hw2 Hr1 Hr2.
  unfold Unified.re_progress, bracketedLine, seqs.
  apply L_seq; [constructor; reflexivity|].
  apply L_seq; [constructor; apply Lang_plus_class; assumption|].
  change ([37%N; 93%N] ++ ws1 ++ step ++ [58%N] ++ ws2 ++ rest)
    with ([37%N] ++ [93%N] ++ ws1 ++ step ++ [58%N] ++ ws2 ++ rest).
  apply L_seq; [constructor; reflexivity|].
  apply L_seq; [constructor; reflexivity|].
  apply L_seq; [apply Lang_star_class; assumption|].
  apply L_seq; [constructor; apply Lang_plus_class; assumption|].
  apply L_seq; [constructor; reflexivity|].
  apply L_seq; [apply Lang_star_class; assumption|].
  constructor. apply Lang_plus_class; assumption.
Qed.

(** The first pattern decides alone whether a message is read as a progress
    line: the message is normalized by it exactly when some part of the
    message is one of its words, whatever the later patterns match. *)
Lemma progress_pattern_decides (message : jsstring) :
  Occurs Unified.re_progress message
  <-> ld_type (Unified.parseText message) = Some (js "progress").
Proof.
  unfold Unified.parseText, Unified.patterns. cbn [firstMatch].
  destruct (match_ Unified.re_progress message) as [m|] eqn:H1.
  - split; [reflexivity|]. intros _. apply match_sound in H1.
    destruct H1 as (pre & post & Hs & HL). exists pre, (whole m), post. auto.
  - apply match_none_iff in H1. split; [contradiction|]. intros H.
    exfalso.
    destruct (match_ Unified.re_agent message);
      [vm_compute in H; discriminate H|].
    destruct (match_ Unified.re_gemini message);
      [vm_compute in H; discriminate H|].
    destruct (match_ Unified.re_system message);
      [vm_compute in H; discriminate H|].
    destruct (match_ Unified.re_error message);
      [vm_compute in H; discriminate H|].
    destruct (match_ Unified.re_completion message);
      vm_compute in H; discriminate H.
Qed.

(** Hence a message that contains a line of the bracketed progress form is
    always normalized as a progress line. *)
Lemma bracketed_line_is_progress
      (pre digits ws1 step ws2 rest post : jsstring) :
  digits <> [] -> forallb isDigit digits = true ->
  forallb isSpace ws1 = true ->
  step <> [] -> forallb (fun c => negb (N.eqb c 58)) step = true ->
  forallb isSpace ws2 = true ->
  rest <> [] -> forallb (fun c => negb (isLineTerminator c)) rest = true ->
  ld_type (Unified.parseText
             (pre ++ bracketedLine digits ws1 step ws2 rest ++ post))
  = Some (js "progress").
Proof.
  intros. apply progress_pattern_decides.
  exists pre, (bracketedLine digits ws1 step ws2 rest), post.
  split; [reflexivity | apply bracketedLine_Lang; assumption].
Qed.

(* ===================================================================== *)
(** ** The progress gauge                                                  *)
(* ===================================================================== *)

(** In the unified monitor the effect calls [setCurrentProgress p] exactly
    when the accepted event carries the progress [p] and [p >= 0]. *)
Lemma unified_gauge_guard (env : Env) (lm : WsMessage) (d : LogData) (p : Z) :
  Unified.normalize lm = Some d ->
  In (SetCurrentProgress p) (Unified.effect env false (Some lm))
  <-> ld_progress d = Some p /\ 0 <= p.
Proof.
  intros Hd. unfold Unified.effect. rewrite Hd.
  destruct (ld_progress d) as [q|]; simpl.
  - destruct (0 <=? q) eqn:Hq; simpl.
    + apply Z.leb_le in Hq. split.
      * intros [H|[H|[]]]; [discriminate|]. inversion H; subst. auto.
      * intros [H _]. inversion H; subst. auto.
    + apply Z.leb_gt in Hq. split.
      * intros [H|[]]; discriminate.
      * intros [H Hp]. inversion H; subst. lia.
  - split; [intros [H|[]]; discriminate | intros [H _]; discriminate].
Qed.

(** The gauge after an accepted event. *)
Lemma unified_gauge_after_accept (maxLogs : Z) (env : Env)
      (s : Unified.State) (lm : WsMessage) (d : LogData) :
  Unified.isPaused s = false ->
  Unified.normalize lm = Some d ->
  Unified.currentProgress (Unified.runEffect maxLogs env (Some lm) s)
  = match ld_progress d with
    | Some p => if 0 <=? p then p else Unified.currentProgress s
    | None => Unified.currentProgress s
    end.
Proof.
  intros Hp Hd. unfold Unified.runEffect, Unified.effect.
  rewrite Hp, Hd.
  destruct (ld_progress d) as [p|]; [destruct (0 <=? p)|]; reflexivity.
Qed.

(** The gauge only moves to 0 on [clearLogs] or to a non-negative value
    observed in the message the effect processes. *)
Lemma unified_gauge_frame (maxLogs : Z) (env : Env) (e : Unified.Event)
      (s : Unified.State) :
  let s' := Unified.step maxLogs env e s in
  Unified.currentProgress s' = Unified.currentProgress s
  \/ (e = Unified.ClearLogs /\ Unified.currentProgress s' = 0)
  \/ (exists lm d,
         (e = Unified.Receive lm \/ e = Unified.TogglePause (Some lm)
          \/ e = Unified.ToggleAutoScroll (Some lm))
         /\ Unified.normalize lm = Some d
         /\ ld_progress d = Some (Unified.currentProgress s')
         /\ 0 <= Unified.currentProgress s').
Proof.
  assert (Hrun : forall (hook : option WsMessage) (s0 : Unified.State),
             let s' := Unified.runEffect maxLogs env hook s0 in
             Unified.currentProgress s' = Unified.currentProgress s0
             \/ exists lm d,
                 hook = Some lm
                 /\ Unified.normalize lm = Some d
                 /\ ld_progress d = Some (Unified.currentProgress s')
                 /\ 0 <= Unified.currentProgress s').
  { intros hook s0. unfold Unified.runEffect, Unified.effect.
    destruct hook as [lm|]; [|simpl; auto].
    destruct (Unified.isPaused s0); [simpl; auto|].
    destruct (Unified.normalize lm) as [d|] eqn:Hd; [|simpl; auto].
    destruct (ld_progress d) as [p|] eqn:Hp; [|simpl; auto].
    destruct (0 <=? p) eqn:Hge; [|simpl; auto].
    simpl. right. exists lm, d.
    apply Z.leb_le in Hge. auto. }
  destruct e as [m|hook|hook|]; cbn [Unified.step].
  - destruct (Hrun (Some m) s) as [H|(lm & d & H1 & H2 & H3 & H4)];
      [left; exact H|].
    inversion H1; subst lm. right; right. exists m, d. auto.
  - destruct (Hrun hook
                {| Unified.activities := Unified.activities s;
                   Unified.currentProgress := Unified.currentProgress s;
                   Unified.isPaused := negb (Unified.isPaused s);
                   Unified.autoScroll := Unified.autoScroll s |})
      as [H|(lm & d & H1 & H2 & H3 & H4)]; [left; exact H|].
    subst hook. right; right. exists lm, d. auto.
  - destruct (Hrun hook
                {| Unified.activities := Unified.activities s;
                   Unified.currentProgress := Unified.currentProgress s;
                   Unified.isPaused := Unified.isPaused s;
                   Unified.autoScroll := negb (Unified.autoScroll s) |})
      as [H|(lm & d & H1 & H2 & H3 & H4)]; [left; exact H|].
    subst hook. right; right. exists lm, d. auto.
  - right; left. auto.
Qed.

(** The same two events in the unified monitor: the error signal -1 leaves
    the gauge at 40. *)
Lemma unified_gauge_keeps_40 :
  Unified.currentProgress
    (Unified.run Unified.defaultMaxLogs
       [(env0, Unified.Receive (progressEvent 40 "Generating rows"));
        (env0, Unified.Receive (progressEvent (-1) "Generation failed"))]
       Unified.initial) = 40.
Proof. vm_compute. reflexivity. Qed.

(** The simple monitor calls [setCurrentProgress p] whenever the accepted
    event carries a progress [p], of either sign. *)
Lemma simple_gauge_unguarded (env : Env) (lm : WsMessage) (d : LogData)
      (p : Z) :
  Simple.normalize lm = Some d ->
  In (SetCurrentProgress p) (Simple.effect env false (Some lm))
  <-> ld_progress d = Some p.
Proof.
  intros Hd. unfold Simple.effect. rewrite Hd.
  destruct (ld_progress d) as [q|]; simpl.
  - split.
    + intros [H|[H|[]]]; [discriminate|]. inversion H; subst. reflexivity.
    + intros H. inversion H; subst. auto.
  - split; [intros [H|[]]; discriminate | discriminate].
Qed.

(** C3, the simple monitor.  Its effect tests only
    [logData.progress !== undefined]: an accepted event with progress -1
    overwrites the gauge, here from 40 to -1. *)
Theorem simple_gauge_takes_minus_one :
  let s1 := Simple.step env0
              (Simple.Receive (progressEvent 40 "Generating rows"))
              Simple.initial in
  let s2 := Simple.step env0
              (Simple.Receive (progressEvent (-1) "Generation failed")) s1 in
  Simple.currentProgress s1 = 40
  /\ Simple.currentProgress s2 = -1
  /\ Simple.effect env0 false
       (Some (progressEvent (-1) "Generation failed"))
     = [PushActivity
          (Simple.newActivity env0
             {| ld_message := Some (js "Generation failed");
                ld_progress := Some (-1);
                ld_step := None; ld_agent := None; ld_status := None;
                ld_level := None; ld_type := None; ld_details := None;
                ld_emoji := None |});
        SetCurrentProgress (-1)].
Proof. vm_compute. repeat split. Qed.

(* ===================================================================== *)
(** ** Classification of an error line                                     *)
(* ===================================================================== *)

(** C4, the unified monitor.  The error pattern strips the keyword from the
    message and [detectActivityType] does not look at the tag ['error'] the
    pattern attached, so the line "Error: connection refused" is recorded
    with type [system]; level and status are [error]. *)
Theorem unified_error_line_is_system :
  let lm := textEvent "Error: connection refused" in
  exists d,
    Unified.normalize lm = Some d
    /\ ld_message d = Some (js "connection refused")
    /\ ld_type d = Some (js "error")
    /\ Unified.type (Unified.newActivity env0 lm d) = Unified.t_system
    /\ Unified.level (Unified.newActivity env0 lm d) = Some (js "error")
    /\ Unified.status (Unified.newActivity env0 lm d) = Unified.s_error.
Proof.
  exists (Unified.parseText (js "Error: connection refused")).
  vm_compute. repeat split.
Qed.

(** The sibling [RealTime] monitor returns the attached tag and records the
    same line with type, level and status all [error]. *)
Lemma realtime_error_line_is_error :
  let lm := textEvent "Error: connection refused" in
  exists d,
    RealTime.normalize lm = Some d
    /\ RealTime.type (RealTime.newLog env0 lm d) = js "error"
    /\ RealTime.level (RealTime.newLog env0 lm d) = js "error"
    /\ RealTime.status (RealTime.newLog env0 lm d) = RealTime.s_error.
Proof.
  exists (RealTime.parseText (js "Error: connection refused")).
  vm_compute. repeat split.
Qed.

(* ===================================================================== *)
(** ** The pause gate                                                      *)
(* ===================================================================== *)

(** While the gate is set the effect calls no setter. *)
Lemma unified_runEffect_paused (maxLogs : Z) (env : Env)
      (hook : option WsMessage) (s : Unified.State) :
  Unified.isPaused s = true -> Unified.runEffect maxLogs env hook s = s.
Proof.
  intros Hp. unfold Unified.runEffect, Unified.effect. rewrite Hp.
  destruct hook; reflexivity.
Qed.

Lemma unified_runEffect_accept (maxLogs : Z) (env : Env) (s : Unified.State)
      (lm : WsMessage) (d : LogData) :
  Unified.isPaused s = false ->
  Unified.normalize lm = Some d ->
  Unified.activities (Unified.runEffect maxLogs env (Some lm) s)
  = pushActivity maxLogs (Unified.newActivity env lm d)
                 (Unified.activities s).
Proof.
  intros Hp Hd. unfold Unified.runEffect, Unified.effect.
  rewrite Hp, Hd.
  destruct (ld_progress d) as [p|]; [destruct (0 <=? p)|]; reflexivity.
Qed.

Lemma unified_receive_accept (maxLogs : Z) (env : Env) (s : Unified.State)
      (x : WsMessage) (d : LogData) :
  Unified.isPaused s = false ->
  Unified.normalize x = Some d ->
  Unified.activities (Unified.step maxLogs env (Unified.Receive x) s)
  = pushActivity maxLogs (Unified.newActivity env x d) (Unified.activities s)
  /\ Unified.currentProgress (Unified.step maxLogs env (Unified.Receive x) s)
     = match ld_progress d with
       | Some p => if 0 <=? p then p else Unified.currentProgress s
       | None => Unified.currentProgress s
       end.
Proof.
  intros Hp Hd. simpl. unfold Unified.runEffect, Unified.effect.
  rewrite Hp, Hd.
  destruct (ld_progress d) as [p|]; [destruct (0 <=? p)|]; split; reflexivity.
Qed.

(** The gate after a click on the pause button. *)
Lemma unified_toggle_isPaused (maxLogs : Z) (env : Env)
      (hook : option WsMessage) (s : Unified.State) :
  Unified.isPaused (Unified.step maxLogs env (Unified.TogglePause hook) s)
  = negb (Unified.isPaused s).
Proof.
  cbn [Unified.step]. unfold Unified.runEffect, Unified.effect.
  cbn [Unified.isPaused].
  destruct hook as [lm|]; [|reflexivity].
  destruct (negb (Unified.isPaused s)); [reflexivity|].
  destruct (Unified.normalize lm) as [d|]; [|reflexivity].
  destruct (ld_progress d) as [p|]; [destruct (0 <=? p)|]; reflexivity.
Qed.

(** C7.  In a state whose pause gate is set, an arriving event changes
    nothing, neither the buffer nor the gauge.  Once the gate is lifted, an
    arriving event that normalizes to [d] is appended: its record is the
    newest entry of the buffer, followed, for a capacity of at least 1, by
    the first [maxLogs - 1] records the buffer held; the gauge is set from
    a progress [>= 0]. *)
Theorem paused_append_is_noop (maxLogs : Z) (env : Env) (s : Unified.State)
        (x : WsMessage) :
  Unified.isPaused s = true ->
  Unified.activities (Unified.step maxLogs env (Unified.Receive x) s)
  = Unified.activities s
  /\ Unified.currentProgress (Unified.step maxLogs env (Unified.Receive x) s)
     = Unified.currentProgress s
  /\ forall (env1 env2 : Env) (hook : option WsMessage) (d : LogData),
      let resumed := Unified.step maxLogs env1 (Unified.TogglePause hook) s in
      let after := Unified.step maxLogs env2 (Unified.Receive x) resumed in
      Unified.isPaused resumed = false
      /\ (Unified.normalize x = Some d ->
          hd_error (Unified.activities after)
          = Some (Unified.newActivity env2 x d)
          /\ (1 <= maxLogs ->
              Unified.activities after
              = Unified.newActivity env2 x d
                :: firstn (Z.to_nat (maxLogs - 1))
                          (Unified.activities resumed))
          /\ Unified.activities after
             = pushActivity maxLogs (Unified.newActivity env2 x d)
                            (Unified.activities resumed)
          /\ Unified.currentProgress after
             = match ld_progress d with
               | Some p =>
                 if 0 <=? p then p else Unified.currentProgress resumed
               | None => Unified.currentProgress resumed
               end).
Proof.
  intros Hp. split; [|split].
  - simpl. rewrite unified_runEffect_paused by exact Hp. reflexivity.
  - simpl. rewrite unified_runEffect_paused by exact Hp. reflexivity.
  - intros env1 env2 hook d resumed after.
    assert (Hres : Unified.isPaused resumed = false).
    { subst resumed. rewrite unified_toggle_isPaused, Hp. reflexivity. }
    split; [exact Hres|]. intros Hd. subst after.
    destruct (unified_receive_accept maxLogs env2 resumed x d Hres Hd)
      as [Ha Hg].
    rewrite Ha, Hg. repeat split.
    intros Hcap. unfold pushActivity.
    rewrite slice_0_firstn by lia. reflexivity.
Qed.

Lemma paused_append_is_noop_witness :
  let s :=
    Unified.step Unified.defaultMaxLogs env0 (Unified.TogglePause None)
      (Unified.step Unified.defaultMaxLogs env0
         (Unified.Receive (progressEvent 40 "Generating rows"))
         Unified.initial) in
  let x := progressEvent 60 "More rows" in
  let after :=
    Unified.step Unified.defaultMaxLogs env0 (Unified.Receive x)
      (Unified.step Unified.defaultMaxLogs env0 (Unified.TogglePause None)
                    s) in
  Unified.isPaused s = true
  /\ Unified.activities
       (Unified.step Unified.defaultMaxLogs env0 (Unified.Receive x) s)
     = Unified.activities s
  /\ map Unified.message (Unified.activities after)
     = [js "More rows"; js "Generating rows"]
  /\ Unified.currentProgress after = 60.
Proof.
  pose proof (paused_append_is_noop Unified.defaultMaxLogs env0
                (Unified.step Unified.defaultMaxLogs env0
                   (Unified.TogglePause None)
                   (Unified.step Unified.defaultMaxLogs env0
                      (Unified.Receive (progressEvent 40 "Generating rows"))
                      Unified.initial))
                (progressEvent 60 "More rows") eq_refl)
    as (Hnoop & _ & Hresume).
  destruct (Hresume env0 env0 None
              {| ld_message := Some (js "More rows");
                 ld_progress := Some 60;
                 ld_step := None; ld_agent := None; ld_status := None;
                 ld_level := None; ld_type := None; ld_details := None;
                 ld_emoji := None |})
    as (_ & Happend).
  destruct (Happend eq_refl) as (_ & Hfirstn & _ & Hgauge).
  split; [reflexivity|]. split; [exact Hnoop|]. split.
  - cbv zeta. rewrite (Hfirstn ltac:(unfold Unified.defaultMaxLogs; lia)).
    vm_compute. reflexivity.
  - cbv zeta. rewrite Hgauge. reflexivity.
Defined.

(** The simple monitor has the same gate. *)
Lemma simple_paused_append_is_noop (env : Env) (s : Simple.State)
      (x : WsMessage) :
  Simple.isPaused s = true ->
  Simple.step env (Simple.Receive x) s = s.
Proof.
  intros Hp. simpl. unfold Simple.runEffect, Simple.effect.
  rewrite Hp. reflexivity.
Qed.

(** An event that arrives while the gate is set leaves no trace in the
    component. *)
Lemma unified_paused_receive (maxLogs : Z) (env : Env) (s : Unified.State)
      (m : WsMessage) :
  Unified.isPaused s = true ->
  Unified.step maxLogs env (Unified.Receive m) s = s.
Proof.
  intros Hp. simpl. apply unified_runEffect_paused. exact Hp.
Qed.

(** The click that lifts the gate changes [isPaused], a dependency of the
    message effect, so the effect runs again on the [lastMessage] the hook
    returns at that render; a message it returns is appended then, also
    when it is the one that arrived while the gate was set.  When the hook
    returns none, nothing is appended. *)
Lemma unified_resume_runs_effect (maxLogs : Z) (env : Env)
      (s : Unified.State) :
  Unified.isPaused s = true ->
  (forall m d,
      Unified.normalize m = Some d ->
      Unified.activities
        (Unified.step maxLogs env (Unified.TogglePause (Some m)) s)
      = Unified.newActivity env m d
        :: slice (Unified.activities s) 0 (maxLogs - 1))
  /\ Unified.activities
       (Unified.step maxLogs env (Unified.TogglePause None) s)
     = Unified.activities s.
Proof.
  intros Hp. split.
  - intros m d Hd. cbn [Unified.step].
    rewrite (unified_runEffect_accept maxLogs env _ m d);
      [reflexivity | cbn [Unified.isPaused]; rewrite Hp; reflexivity
       | exact Hd].
  - reflexivity.
Qed.

(** Auto-scroll is a dependency of the effect too: with the gate open,
    toggling it appends a further record of the message the hook
    returns. *)
Lemma unified_autoscroll_runs_effect (maxLogs : Z) (env : Env)
      (s : Unified.State) (m : WsMessage) (d : LogData) :
  Unified.isPaused s = false ->
  Unified.normalize m = Some d ->
  Unified.activities
    (Unified.step maxLogs env (Unified.ToggleAutoScroll (Some m)) s)
  = Unified.newActivity env m d :: slice (Unified.activities s) 0 (maxLogs - 1).
Proof.
  intros Hp Hd. cbn [Unified.step].
  rewrite (unified_runEffect_accept maxLogs env _ m d);
    [reflexivity | exact Hp | exact Hd].
Qed.

(** C5.  The event arrives while the gate is set and leaves the component
    as it is.  The user lifts the gate while the hook still returns that
    event as [lastMessage]: the effect runs again and appends the record of
    the event that had arrived during the pause.  A click on auto-scroll
    then appends the same event a second time. *)
Theorem paused_event_appended_on_resume :
  let m := textEvent "hello" in
  let paused :=
    Unified.step Unified.defaultMaxLogs env0 (Unified.TogglePause None)
                 Unified.initial in
  let arrived :=
    Unified.step Unified.defaultMaxLogs env0 (Unified.Receive m) paused in
  let resumed :=
    Unified.step Unified.defaultMaxLogs env0 (Unified.TogglePause (Some m))
                 arrived in
  let scrolled :=
    Unified.step Unified.defaultMaxLogs env0
                 (Unified.ToggleAutoScroll (Some m)) resumed in
  Unified.isPaused paused = true
  /\ arrived = paused
  /\ Unified.activities arrived = []
  /\ Unified.isPaused resumed = false
  /\ map Unified.message (Unified.activities resumed) = [js "hello"]
  /\ map Unified.message (Unified.activities scrolled)
     = [js "hello"; js "hello"].
Proof. vm_compute. repeat split. Qed.

(** The simple monitor, whose effect depends on [isPaused] as well, appends
    the event on resume in the same way. *)
Lemma simple_paused_event_appended_on_resume :
  let m := progressEvent 40 "Generating rows" in
  let paused := Simple.step env0 (Simple.TogglePause None) Simple.initial in
  let arrived := Simple.step env0 (Simple.Receive m) paused in
  let resumed := Simple.step env0 (Simple.TogglePause (Some m)) arrived in
  Simple.isPaused paused = true
  /\ arrived = paused
  /\ map Simple.message (Simple.activities resumed)
     = [js "Generating rows"]
  /\ Simple.currentProgress resumed = 40.
Proof. vm_compute. repeat split. Qed.

(* ===================================================================== *)
(** ** The status poller                                                   *)
(* ===================================================================== *)

(** C6 (as amended).  A tick whose probe resolves replaces the snapshot by
    one built from the response and the connectivity flag alone; a tick whose
    probe fails rewrites [backend] only (unhealthy, response time 0) and
    keeps [gemini], [agents] and [websockets] of the previous snapshot.
    Both monitors with a poller behave so. *)
Theorem poll_tick_snapshot :
  (forall isConnected r t0 t1 t prev prev',
      Unified.checkSystemStatus isConnected (Unified.Resolved r t0 t1 t) prev
      = Unified.checkSystemStatus isConnected (Unified.Resolved r t0 t1 t)
                                  prev')
  /\ (forall isConnected t prev,
         let next :=
           Unified.checkSystemStatus isConnected (Unified.Rejected t) prev in
         Unified.backend next
         = {| Unified.healthy := false; Unified.lastCheck := Some t;
              Unified.responseTime := 0 |}
         /\ Unified.gemini next = Unified.gemini prev
         /\ Unified.agents next = Unified.agents prev
         /\ Unified.websockets next = Unified.websockets prev)
  /\ (forall isConnected r t0 t1 t prev prev',
         RealTime.checkSystemStatus isConnected (RealTime.Resolved r t0 t1 t)
                                    prev
         = RealTime.checkSystemStatus isConnected
                                      (RealTime.Resolved r t0 t1 t) prev')
  /\ (forall isConnected t prev,
         let next :=
           RealTime.checkSystemStatus isConnected (RealTime.Rejected t)
                                      prev in
         RealTime.backend next
         = {| RealTime.healthy := false; RealTime.lastCheck := Some t;
              RealTime.responseTime := 0 |}
         /\ RealTime.gemini next = RealTime.gemini prev
         /\ RealTime.agents next = RealTime.agents prev
         /\ RealTime.websockets next = RealTime.websockets prev).
Proof. repeat split. Qed.

(** C6 as stated fails: after a tick that found the service ready, a failed
    tick rewrites [backend] and leaves the other three fields as the earlier
    tick set them. *)
Lemma failed_tick_is_partial :
  let ready :=
    {| Unified.hr_healthy := true;
       Unified.hr_gemini_status := Some (js "ready");
       Unified.hr_gemini_model := Some (js "gemini-2.0-flash-exp");
       Unified.hr_gemini_quota_preserved := Some true;
       Unified.hr_agents := Some (js "active");
       Unified.hr_websockets := Some (js "ready") |} in
  let prev :=
    Unified.checkSystemStatus true (Unified.Resolved ready 0 12 12)
                              Unified.initialStatus in
  let next := Unified.checkSystemStatus true (Unified.Rejected 30000) prev in
  Unified.backend next <> Unified.backend prev
  /\ Unified.gemini next = Unified.gemini prev
  /\ Unified.agents next = Unified.agents prev
  /\ Unified.websockets next = Unified.websockets prev
  /\ next <> Unified.checkSystemStatus true (Unified.Rejected 30000)
                                       Unified.initialStatus.
Proof.
  vm_compute. repeat split; intros H; discriminate H.
Qed.

(* ===================================================================== *)
(** ** What normalization yields                                           *)
(* ===================================================================== *)

(** The message of a record is never empty. *)
Lemma unified_message_nonempty (env : Env) (lm : WsMessage) (d : LogData) :
  Unified.message (Unified.newActivity env lm d) <> [].
Proof.
  simpl. destruct (ld_message d) as [[|c s]|]; simpl;
    try discriminate; vm_compute; discriminate.
Qed.

(** *** Groups that take part in every match *)

Lemma capture_cons (c : captures) (i j : nat) (w : jsstring) :
  capture c i <> None -> capture ((j, w) :: c) i <> None.
Proof. simpl. destruct (Nat.eqb i j); [discriminate | auto]. Qed.

Section Bound.

Context {R : Type}.
Variable i : nat.

Lemma star_loop_keeps_bound (body : matcher R) :
  (forall s c k x,
      body s c k = Some x -> capture c i <> None ->
      exists s' c', capture c' i <> None /\ k s' c' = Some x) ->
  forall fuel s c k x,
    star_loop body k fuel s c = Some x -> capture c i <> None ->
    exists s' c', capture c' i <> None /\ k s' c' = Some x.
Proof.
  intros Hbody. induction fuel as [|fuel IH]; simpl; intros s c k x H Hc.
  - exists s, c. auto.
  - destruct (body s c _) as [y|] eqn:Hb.
    + inversion H; subst y. apply Hbody in Hb; [|exact Hc].
      destruct Hb as (s1 & c1 & Hc1 & Hk).
      destruct (length s1 <? length s)%nat; [|discriminate].
      eapply IH; eassumption.
    + exists s, c. auto.
Qed.

End Bound.

(** A binding, once made, is there when the continuation runs. *)
Lemma rmatch_keeps_bound (i : nat) (r : regex) :
  forall (R : Type) s c (k : jsstring -> captures -> option R) x,
    rmatch r s c k = Some x -> capture c i <> None ->
    exists s' c', capture c' i <> None /\ k s' c' = Some x.
Proof.
  induction r as [|p|r1 IH1 r2 IH2|r1 IH1 r2 IH2|r IH|j r IH];
    intros R s c k x H Hc; simpl in H.
  - exists s, c. auto.
  - destruct s as [|y s]; [discriminate|].
    destruct (p y); [|discriminate]. exists s, c. auto.
  - apply IH1 in H; [|exact Hc]. destruct H as (s1 & c1 & Hc1 & H).
    apply IH2 in H; assumption.
  - destruct (rmatch r1 s c k) as [y|] eqn:H1.
    + inversion H; subst y. eapply IH1; eassumption.
    + eapply IH2; eassumption.
  - apply (star_loop_keeps_bound i) in H; [exact H | | exact Hc].
    intros s0 c0 k0 x0. apply IH.
  - apply IH in H; [|exact Hc]. destruct H as (s1 & c1 & Hc1 & H).
    eexists s1, _. split; [|exact H]. apply capture_cons. exact Hc1.
Qed.

(** A group that [binds] says takes part is bound when the continuation
    runs. *)
Lemma rmatch_binds (i : nat) (r : regex) :
  binds i r = true ->
  forall (R : Type) s c (k : jsstring -> captures -> option R) x,
    rmatch r s c k = Some x ->
    exists s' c', capture c' i <> None /\ k s' c' = Some x.
Proof.
  induction r as [|p|r1 IH1 r2 IH2|r1 IH1 r2 IH2|r IH|j r IH];
    simpl; intros Hb R s c k x H; try discriminate.
  - destruct (binds i r1) eqn:Hb1.
    + apply IH1 in H; [|reflexivity]. destruct H as (s1 & c1 & Hc1 & H).
      apply rmatch_keeps_bound with (i := i) in H; assumption.
    + simpl in Hb. apply rmatch_sound in H.
      destruct H as (a & b & c1 & _ & _ & H).
      apply IH2 in H; assumption.
  - apply andb_true_iff in Hb. destruct Hb as [Hb1 Hb2].
    destruct (rmatch r1 s c k) as [y|] eqn:H1.
    + inversion H; subst y. eapply IH1; eassumption.
    + eapply IH2; eassumption.
  - destruct (Nat.eqb i j) eqn:Hij.
    + apply rmatch_sound in H. destruct H as (a & b & c1 & _ & _ & H).
      eexists b, _. split; [|exact H]. simpl. rewrite Hij. discriminate.
    + simpl in Hb. apply IH in H; [|exact Hb].
      destruct H as (s1 & c1 & Hc1 & H).
      eexists s1, _. split; [|exact H]. apply capture_cons. exact Hc1.
Qed.

Lemma match_binds (i : nat) (r : regex) (s : jsstring) (m : match_array) :
  binds (S i) r = true -> match_ r s = Some m -> defined m (S i) = true.
Proof.
  intros Hb.
  assert (Hhere : forall s', match_here r s' = Some m ->
                             defined m (S i) = true).
  { intros s' H. unfold match_here in H.
    apply (rmatch_binds (S i) r Hb) in H.
    destruct H as (rest & c' & Hc & H). inversion H; subst m.
    unfold defined. simpl. destruct (capture c' (S i)); congruence. }
  induction s as [|x s IH]; rewrite match_unfold.
  - destruct (match_here r []) as [m'|] eqn:Hh; [|discriminate].
    intros H; inversion H; subst m'. eapply Hhere; eassumption.
  - destruct (match_here r (x :: s)) as [m'|] eqn:Hh.
    + intros H; inversion H; subst m'. eapply Hhere; eassumption.
    + exact IH.
Qed.

(** Every group of the unified table on which [.trim()] is called takes
    part in every match of its pattern: the scan never throws. *)
Lemma unified_groups_defined (message : jsstring) (key : Unified.PatternKey)
      (m : match_array) :
  firstMatch Unified.patterns message = Some (key, m) ->
  forallb (defined m) (Unified.trimmedGroups key) = true.
Proof.
  intros H. apply firstMatch_inv in H.
  destruct H as (pre & pattern & post & Htable & _ & Hm).
  assert (Hin : In (key, pattern) Unified.patterns).
  { rewrite Htable. apply in_or_app. right. left. reflexivity. }
  unfold Unified.patterns in Hin.
  destruct Hin as [Hin|[Hin|[Hin|[Hin|[Hin|[Hin|[]]]]]]];
    inversion Hin; subst key pattern;
    cbn [Unified.trimmedGroups forallb];
    repeat match goal with
           | |- context [defined m (S ?i)] =>
             match type of Hm with
             | match_ ?r _ = _ =>
               let Hb := fresh "Hb" in
               assert (Hb : binds (S i) r = true)
                 by (vm_compute; reflexivity);
               rewrite (match_binds i r message m Hb Hm); clear Hb
             end
           end;
    reflexivity.
Qed.

(** So does every group a case of the [switch] reads without testing it:
    [group] never stands for a missing one there. *)
Lemma unified_read_groups_defined (message : jsstring)
      (key : Unified.PatternKey) (m : match_array) :
  firstMatch Unified.patterns message = Some (key, m) ->
  match key with
  | Unified.k_progress | Unified.k_agent =>
    defined m 1 && defined m 2 && defined m 3
  | Unified.k_gemini => defined m 1 && defined m 2
  | Unified.k_error | Unified.k_completion => defined m 2
  | Unified.k_system => true
  end = true.
Proof.
  intros H. apply firstMatch_inv in H.
  destruct H as (pre & pattern & post & Htable & _ & Hm).
  assert (Hin : In (key, pattern) Unified.patterns).
  { rewrite Htable. apply in_or_app. right. left. reflexivity. }
  unfold Unified.patterns in Hin.
  destruct Hin as [Hin|[Hin|[Hin|[Hin|[Hin|[Hin|[]]]]]]];
    inversion Hin; subst key pattern;
    repeat match goal with
           | |- context [defined m (S ?i)] =>
             match type of Hm with
             | match_ ?r _ = _ =>
               let Hb := fresh "Hb" in
               assert (Hb : binds (S i) r = true)
                 by (vm_compute; reflexivity);
               rewrite (match_binds i r message m Hb Hm); clear Hb
             end
           end;
    reflexivity.
Qed.

Lemma parseDelivered_returns (message : jsstring) :
  Unified.parseDelivered message = Normal (Unified.parseText message).
Proof.
  unfold Unified.parseDelivered, Unified.parseText.
  destruct (firstMatch Unified.patterns message) as [[key m]|] eqn:Hf;
    [|reflexivity].
  rewrite (unified_groups_defined _ _ _ Hf). reflexivity.
Qed.

Lemma simple_groups_defined (message : jsstring) (m : match_array) :
  match_ Simple.re_progress message = Some m ->
  defined m 2 && defined m 3 = true.
Proof.
  intros Hm.
  assert (Hb2 : binds 2 Simple.re_progress = true)
    by (vm_compute; reflexivity).
  assert (Hb3 : binds 3 Simple.re_progress = true)
    by (vm_compute; reflexivity).
  rewrite (match_binds 1 _ _ _ Hb2 Hm), (match_binds 2 _ _ _ Hb3 Hm).
  reflexivity.
Qed.

(** *** Events of the declared types *)

Lemma stringOrNone_string (x : option jsstring) :
  stringOrNone (option_map JString x) = Normal x.
Proof. destruct x; reflexivity. Qed.

Lemma unified_strings_deliver (d : LogData) :
  Unified.strings (deliverData d) = Normal d.
Proof.
  unfold Unified.strings, deliverData. simpl.
  rewrite !stringOrNone_string. simpl. destruct d; reflexivity.
Qed.

Lemma unified_readMessage_deliver (env : Env) (lm : WsMessage)
      (d : LogData) :
  Unified.accept env (Unified.readMessage (deliver lm)) d
  = Unified.accept env lm d.
Proof.
  unfold Unified.accept, Unified.newActivity, Unified.readMessage, deliver.
  destruct lm as [t [data|]]; simpl; [|reflexivity].
  destruct (ld_message data); reflexivity.
Qed.

(** On an event of the declared types the [try] block returns, and the
    whole effect is [Unified.effect]. *)
Lemma unified_typed_event_returns (env : Env) (isPaused : bool)
      (lm : WsMessage) :
  Unified.messageEffect env isPaused (Some (deliver lm))
  = Normal (Unified.effect env isPaused (Some lm)).
Proof.
  unfold Unified.messageEffect, Unified.effect.
  destruct isPaused; [reflexivity|].
  unfold Unified.tryBlock, Unified.normalize.
  pose proof (unified_readMessage_deliver env lm) as Hacc.
  destruct lm as [t [data|]]; [|reflexivity].
  cbn [deliver raw_data raw_type msg_data msg_type option_map] in *.
  destruct (opt_is t (js "generation_update")).
  - rewrite unified_strings_deliver. simpl. rewrite Hacc. reflexivity.
  - destruct (ld_message data) as [[|c s]|] eqn:Hmsg;
      unfold deliverData; cbn [rd_message]; rewrite Hmsg; simpl;
      try reflexivity.
    rewrite parseDelivered_returns. simpl. rewrite Hacc. reflexivity.
Qed.

Lemma simple_typed_event_returns (env : Env) (isPaused : bool)
      (lm : WsMessage) :
  Simple.messageEffect env isPaused (Some (deliver lm))
  = Normal (Simple.effect env isPaused (Some lm)).
Proof.
  unfold Simple.messageEffect, Simple.effect.
  destruct isPaused; [reflexivity|].
  unfold Simple.tryBlock, Simple.normalize.
  destruct lm as [t [data|]]; [|reflexivity].
  cbn [deliver raw_data raw_type msg_data msg_type option_map].
  destruct (opt_is t (js "generation_update")).
  - unfold Simple.strings, deliverData. simpl.
    rewrite !stringOrNone_string. simpl.
    destruct data as [m st p a s l ty de e]; simpl.
    destruct ty; reflexivity.
  - destruct (opt_is t (js "raw_message")); [|reflexivity].
    unfold deliverData; cbn [rd_message].
    destruct (ld_message data) as [[|c s]|];
      cbn [option_map truthyJson truthy or_else andb]; try reflexivity.
    destruct (match_ Simple.re_progress (c :: s)) as [m|] eqn:Hm;
      [|reflexivity].
    rewrite (simple_groups_defined _ _ Hm). reflexivity.
Qed.

(** *** Delivered events that cannot be parsed *)

Lemma stringOrNone_thrown (v : option json) :
  stringOrNone v = Thrown <-> notAString v.
Proof.
  destruct v as [[| | | | |]|]; simpl; split; intros H;
    try discriminate; try contradiction; auto.
Qed.

Lemma stringOrNone_cases (v : option json) :
  (exists x, stringOrNone v = Normal x /\ ~ notAString v)
  \/ (stringOrNone v = Thrown /\ notAString v).
Proof.
  destruct v as [[| | | | |]|]; simpl;
    solve [ left; eexists; split; [reflexivity | auto]
          | right; split; [reflexivity | exact I] ].
Qed.

Lemma unified_strings_thrown (data : RawData) :
  Unified.strings data = Thrown
  <-> notAString (rd_message data) \/ notAString (rd_step data)
      \/ notAString (rd_type data).
Proof.
  unfold Unified.strings.
  destruct (stringOrNone_cases (rd_message data))
    as [(m & -> & Hm) | (-> & Hm)];
    [|simpl; split; auto].
  destruct (stringOrNone_cases (rd_step data))
    as [(st & -> & Hst) | (-> & Hst)];
    [|simpl; split; auto].
  destruct (stringOrNone_cases (rd_type data))
    as [(ty & -> & Hty) | (-> & Hty)];
    [|simpl; split; auto].
  simpl. split; [discriminate | tauto].
Qed.

(** The [try] block throws exactly on the events that cannot be parsed. *)
Lemma unified_tryBlock_thrown (env : Env) (lm : RawMessage) :
  Unified.tryBlock env lm = Thrown <-> malformed lm.
Proof.
  unfold Unified.tryBlock, malformed.
  destruct (raw_data lm) as [data|].
  - destruct (opt_is (raw_type lm) (js "generation_update")).
    + destruct (Unified.strings data) as [d|] eqn:Hs; simpl; split.
      * discriminate.
      * intros (data' & Hd & H). inversion Hd; subst data'.
        apply unified_strings_thrown in H. congruence.
      * intros _. exists data. split; [reflexivity|].
        apply unified_strings_thrown. exact Hs.
      * reflexivity.
    + destruct (rd_message data) as [[|b|n|s| |]|] eqn:Hmsg; simpl.
      all: try (split; [discriminate|];
                intros (data' & Hd & Ht & Hn); inversion Hd; subst data';
                rewrite Hmsg in *; simpl in *;
                solve [discriminate | contradiction]).
      all: try (split; [intros _|reflexivity]; exists data;
                rewrite Hmsg; simpl; auto).
      * destruct b; simpl; split; try discriminate; try reflexivity.
        -- intros _. exists data. rewrite Hmsg. simpl. auto.
        -- intros (data' & Hd & Ht & Hn). inversion Hd; subst data'.
           rewrite Hmsg in Ht. discriminate.
      * destruct (n =? 0) eqn:Hn0; simpl; split; try discriminate;
          try reflexivity.
        -- intros (data' & Hd & Ht & Hn). inversion Hd; subst data'.
           rewrite Hmsg in Ht. simpl in Ht. rewrite Hn0 in Ht. discriminate.
        -- intros _. exists data. rewrite Hmsg. simpl. rewrite Hn0. auto.
      * destruct s as [|c s]; simpl.
        -- split; [discriminate|].
           intros (data' & Hd & Ht & Hn). inversion Hd; subst data'.
           rewrite Hmsg in Hn. contradiction.
        -- rewrite parseDelivered_returns. simpl. split; [discriminate|].
           intros (data' & Hd & Ht & Hn). inversion Hd; subst data'.
           rewrite Hmsg in Hn. contradiction.
  - split; [discriminate|]. intros (data & Hd & _). discriminate.
Qed.

Lemma unified_tryBlock_message (env : Env) (lm : RawMessage)
      (calls : list (Call Unified.ActivityLog)) (a : Unified.ActivityLog) :
  Unified.tryBlock env lm = Normal calls ->
  In (PushActivity a) calls -> Unified.message a <> [].
Proof.
  assert (Hacc : forall m d,
             In (PushActivity a) (Unified.accept env m d) ->
             Unified.message a <> []).
  { intros m d [Ha | Hin].
    - inversion Ha; subst a. apply unified_message_nonempty.
    - destruct (ld_progress d) as [p|]; [|contradiction].
      destruct (0 <=? p); [|contradiction].
      destruct Hin as [Hin | []]. discriminate. }
  unfold Unified.tryBlock.
  destruct (raw_data lm) as [data|]; [|intros H; inversion H; contradiction].
  destruct (opt_is (raw_type lm) (js "generation_update")).
  - destruct (Unified.strings data) as [d|]; simpl; [|discriminate].
    intros H; inversion H; subst calls. apply Hacc.
  - destruct (truthyJson (rd_message data));
      [|intros H; inversion H; contradiction].
    destruct (rd_message data) as [[| | |s| |]|]; try discriminate.
    rewrite parseDelivered_returns. simpl.
    intros H; inversion H; subst calls. apply Hacc.
Qed.

(** C8 (as amended).  The message effect of the unified monitor returns
    normally on whatever event is delivered, paused or not: nothing is
    raised to the caller.  Parsing throws exactly on the events that cannot
    be parsed (a message, step or type that is present but is not a string),
    and on these the effect appends the record "Failed to parse incoming log
    message".  Otherwise: free text that no pattern matches yields a record
    whose message is the entire text; a structured event without a message
    yields a record with the message "Processing..."; an event without
    [data], or one that is not a generation update and has no truthy
    message, yields no record and calls no setter.  Every record the effect
    appends has a non-empty message, and on an event of the declared types
    the effect is [Unified.effect]. *)
Theorem normalization_outcomes (env : Env) (lm : RawMessage) :
  (forall isPaused,
      exists calls,
        Unified.messageEffect env isPaused (Some lm) = Normal calls)
  /\ (Unified.tryBlock env lm = Thrown <-> malformed lm)
  /\ (malformed lm ->
      Unified.messageEffect env false (Some lm)
      = Normal [PushActivity (Unified.errorActivity env)])
  /\ (forall data text,
         raw_data lm = Some data ->
         opt_is (raw_type lm) (js "generation_update") = false ->
         rd_message data = Some (JString text) -> text <> [] ->
         noneMatches Unified.patterns text ->
         exists a,
           Unified.messageEffect env false (Some lm)
           = Normal [PushActivity a]
           /\ Unified.message a = text)
  /\ (forall data,
         raw_data lm = Some data ->
         raw_type lm = Some (js "generation_update") ->
         ~ malformed lm ->
         truthyJson (rd_message data) = false ->
         exists a rest,
           Unified.messageEffect env false (Some lm)
           = Normal (PushActivity a :: rest)
           /\ Unified.message a = js "Processing...")
  /\ ((raw_data lm = None
       \/ exists data, raw_data lm = Some data
                       /\ opt_is (raw_type lm) (js "generation_update")
                          = false
                       /\ truthyJson (rd_message data) = false) ->
      Unified.messageEffect env false (Some lm) = Normal [])
  /\ (forall calls a,
         Unified.messageEffect env false (Some lm) = Normal calls ->
         In (PushActivity a) calls -> Unified.message a <> [])
  /\ (forall e isPaused,
         lm = deliver e ->
         Unified.messageEffect env isPaused (Some lm)
         = Normal (Unified.effect env isPaused (Some e))).
Proof.
  repeat match goal with |- _ /\ _ => split end.
  - intros [|]; simpl; [eexists; reflexivity|].
    destruct (Unified.tryBlock env lm); simpl; eexists; reflexivity.
  - apply unified_tryBlock_thrown.
  - intros H. apply unified_tryBlock_thrown with (env := env) in H.
    simpl. rewrite H. reflexivity.
  - intros data text Hdata Hty Hmsg Hne Hnone.
    simpl. unfold Unified.tryBlock. rewrite Hdata, Hty, Hmsg.
    destruct text as [|c text]; [congruence|]. simpl.
    rewrite parseDelivered_returns. unfold Unified.parseText.
    apply firstMatch_none in Hnone. rewrite Hnone. simpl.
    eexists. split; reflexivity.
  - intros data Hdata Hty Hwell Hmsg.
    destruct (Unified.tryBlock env lm) as [calls|] eqn:Htry;
      [|exfalso; apply Hwell; apply (unified_tryBlock_thrown env);
        exact Htry].
    simpl. rewrite Htry. simpl.
    unfold Unified.tryBlock in Htry. rewrite Hdata, Hty in Htry.
    unfold opt_is in Htry. rewrite str_eqb_refl in Htry.
    unfold Unified.strings in Htry.
    destruct (rd_message data) as [[|b|n|s| |]|]; simpl in *;
      try discriminate;
      destruct (stringOrNone (rd_step data)); simpl in *;
        try discriminate;
      destruct (stringOrNone (rd_type data)); simpl in *;
        try discriminate;
      try (destruct s; [|discriminate]);
      inversion Htry; subst calls; unfold Unified.accept;
      eexists; eexists; (split; [reflexivity|]); reflexivity.
  - intros [Hnone | (data & Hdata & Hty & Hmsg)]; simpl;
      unfold Unified.tryBlock.
    + rewrite Hnone. reflexivity.
    + rewrite Hdata, Hty, Hmsg. reflexivity.
  - intros calls a H Hin. simpl in H.
    destruct (Unified.tryBlock env lm) as [calls'|] eqn:Htry; simpl in H;
      inversion H; subst calls.
    + eapply unified_tryBlock_message; eassumption.
    + destruct Hin as [Ha | []]. inversion Ha; subst a.
      vm_compute. discriminate.
  - intros e isPaused ->. apply unified_typed_event_returns.
Qed.

Lemma normalization_outcomes_witness :
  (malformed (numberEvent "raw_message")
   /\ Unified.messageEffect env0 false (Some (numberEvent "raw_message"))
      = Normal [PushActivity (Unified.errorActivity env0)])
  /\ (noneMatches Unified.patterns (js "hello world")
      /\ exists a,
          Unified.messageEffect env0 false
            (Some (deliver (textEvent "hello world")))
          = Normal [PushActivity a]
          /\ Unified.message a = js "hello world").
Proof.
  assert (Hbad : malformed (numberEvent "raw_message")).
  { eexists. split; [reflexivity|]. vm_compute. split; [reflexivity|exact I]. }
  assert (Hnone : noneMatches Unified.patterns (js "hello world")).
  { repeat constructor; vm_compute; reflexivity. }
  split; split.
  - exact Hbad.
  - exact (proj1 (proj2 (proj2
             (normalization_outcomes env0 (numberEvent "raw_message"))))
             Hbad).
  - exact Hnone.
  - refine (proj1 (proj2 (proj2 (proj2
              (normalization_outcomes env0
                 (deliver (textEvent "hello world"))))))
              _ (js "hello world") eq_refl _ _ _ Hnone).
    + vm_compute. reflexivity.
    + vm_compute. reflexivity.
    + discriminate.
Defined.

(** An event whose message is a number: the unified monitor logs the
    parse failure, the simple monitor drops the event. *)
Lemma number_message_is_logged_as_failure :
  Unified.tryBlock env0 (numberEvent "raw_message") = Thrown
  /\ fold_left (Unified.call Unified.defaultMaxLogs)
               (match Unified.messageEffect env0 false
                        (Some (numberEvent "generation_update")) with
                | Normal calls => calls
                | Thrown => []
                end)
               Unified.initial
     = {| Unified.activities := [Unified.errorActivity env0];
          Unified.currentProgress := 0;
          Unified.isPaused := false;
          Unified.autoScroll := true |}
  /\ Simple.tryBlock env0 (numberEvent "raw_message") = Thrown
  /\ Simple.messageEffect env0 false (Some (numberEvent "raw_message"))
     = Normal [].
Proof. vm_compute. repeat split. Qed.

(** C8 as stated fails: an event that has neither the discriminator nor a
    message yields no record at all, the buffer stays empty. *)
Lemma shapeless_event_yields_nothing :
  let lm := {| msg_type := None; msg_data := Some emptyData |} in
  Unified.normalize lm = None
  /\ Unified.activities
       (Unified.step Unified.defaultMaxLogs env0 (Unified.Receive lm) Unified.initial) = []
  /\ ~ (forall e : WsMessage, exists d, Unified.normalize e = Some d).
Proof.
  split; [reflexivity|]. split; [reflexivity|].
  intros H.
  destruct (H {| msg_type := None; msg_data := Some emptyData |}) as [d Hd].
  discriminate Hd.
Qed.

(** Free text that no pattern of the [RealTime] table matches keeps its
    whole text too. *)
Lemma realtime_unmatched_text_kept (message : jsstring) :
  noneMatches RealTime.patterns message ->
  ld_message (RealTime.parseText message) = Some message.
Proof.
  intros Hnone. unfold RealTime.parseText.
  apply firstMatch_none in Hnone. rewrite Hnone. reflexivity.
Qed.

(** In the simple monitor free text outside the progress pattern is dropped
    as well. *)
Lemma simple_unmatched_text_dropped :
  Simple.normalize (textEvent "hello world") = None
  /\ Unified.normalize (textEvent "hello world")
     = Some {| ld_message := Some (js "hello world");
               ld_type := Some (js "system");
               ld_step := None; ld_progress := None; ld_agent := None;
               ld_status := None; ld_level := None; ld_details := None;
               ld_emoji := None |}.
Proof. vm_compute. split; reflexivity. Qed.

(* ===================================================================== *)
(** ** The filter projection                                               *)
(* ===================================================================== *)

Section Filter.

Context {A : Type}.
Variable f : A -> bool.
Variable P : A -> Prop.
Hypothesis f_decides : forall x, f x = true <-> P x.

Lemma filter_Projection (l : list A) : Projection P l (filter f l).
Proof.
  induction l as [|x l IH]; simpl.
  - constructor.
  - destruct (f x) eqn:Hx.
    + apply proj_keep; [apply f_decides; exact Hx | exact IH].
    + apply proj_drop; [|exact IH].
      intros HP. apply f_decides in HP. congruence.
Qed.

Lemma filter_In_iff (l : list A) (x : A) :
  In x (filter f l) <-> In x l /\ P x.
Proof. rewrite filter_In, f_decides. reflexivity. Qed.

End Filter.

(** A projection is determined by the list and the predicate. *)
Lemma Projection_functional {A : Type} (P : A -> Prop) (l o1 o2 : list A) :
  Projection P l o1 -> Projection P l o2 -> o1 = o2.
Proof.
  intros H1. revert o2.
  induction H1 as [|x l o Hx H IH|x l o Hx H IH]; intros o2 H2;
    inversion H2; subst; try contradiction; auto.
  f_equal. apply IH. assumption.
Qed.

Lemma agent_search_iff (a : option jsstring) (t : jsstring) :
  match a with
  | Some s => includes (toLowerCase s) (toLowerCase t)
  | None => false
  end = true
  <-> exists s, a = Some s /\ SubstringNoCase t s.
Proof.
  unfold SubstringNoCase. destruct a as [s|].
  - rewrite includes_Substring. split.
    + intros H. exists s. auto.
    + intros (s' & Hs & H). inversion Hs; subst. exact H.
  - split; [discriminate | intros (s & Hs & _); discriminate].
Qed.

(** *** Lower-casing, part by part *)

Lemma codePoints_pair (h l : N) (s : jsstring) :
  codePoints (h :: l :: s)
  = if isHighSurrogate h && isLowSurrogate l
    then (65536 + (h - 55296) * 1024 + (l - 56320))%N :: codePoints s
    else h :: codePoints (l :: s).
Proof. reflexivity. Qed.

Lemma not_surrogate (c : N) :
  (c < 55296 \/ 57343 < c)%N ->
  isHighSurrogate c = false /\ isLowSurrogate c = false.
Proof.
  intros H. unfold isHighSurrogate, isLowSurrogate.
  rewrite !andb_false_iff, !N.leb_gt. lia.
Qed.

(** A part without surrogates is its own sequence of code points. *)
Lemma codePoints_plain_app (part post : jsstring) :
  plain part -> codePoints (part ++ post) = part ++ codePoints post.
Proof.
  intros Hp. induction Hp as [|x part [_ Hx] _ IH]; [reflexivity|].
  cbn [app]. rewrite <- IH.
  destruct (part ++ post) as [|l s] eqn:E; [reflexivity|].
  rewrite codePoints_pair.
  destruct (not_surrogate x Hx) as [-> _]. reflexivity.
Qed.

(** A code unit that is not a low surrogate starts a code point. *)
Lemma codePoints_cut (x : N) (rest : jsstring) :
  isLowSurrogate x = false ->
  forall n pre,
    (length pre <= n)%nat ->
    codePoints (pre ++ x :: rest) = codePoints pre ++ codePoints (x :: rest).
Proof.
  intros Hx. induction n as [|n IH]; intros pre Hlen.
  - destruct pre; [reflexivity | simpl in Hlen; lia].
  - destruct pre as [|h [|l pre]].
    + reflexivity.
    + cbn [app]. rewrite codePoints_pair, Hx, andb_false_r. reflexivity.
    + cbn [app]. rewrite (codePoints_pair h l pre).
      rewrite (codePoints_pair h l (pre ++ x :: rest)).
      destruct (isHighSurrogate h && isLowSurrogate l).
      * rewrite IH by (simpl in Hlen; lia). reflexivity.
      * change (l :: pre ++ x :: rest) with ((l :: pre) ++ x :: rest).
        rewrite IH by (simpl in Hlen; simpl; lia). reflexivity.
Qed.

(** What comes first is lower-cased first. *)
Lemma lowerFrom_skip (a b before : list N) :
  exists done,
    lowerFrom before (a ++ b) = done ++ lowerFrom (rev a ++ before) b.
Proof.
  revert before. induction a as [|c a IH]; intros before.
  - exists []. reflexivity.
  - cbn [app lowerFrom rev]. destruct (IH (c :: before)) as [done ->].
    rewrite <- !app_assoc. eexists. rewrite app_assoc. reflexivity.
Qed.

Lemma lowerFrom_plain_app (s rest before : list N) :
  plain s ->
  lowerFrom before (s ++ rest)
  = flat_map lowerPoint s ++ lowerFrom (rev s ++ before) rest.
Proof.
  intros Hp. revert before.
  induction Hp as [|c s [Hc _] _ IH]; intros before; [reflexivity|].
  cbn [app lowerFrom flat_map rev]. rewrite IH, <- !app_assoc.
  apply N.eqb_neq in Hc. rewrite Hc. reflexivity.
Qed.

Lemma lowerFrom_plain (s before : list N) :
  plain s -> lowerFrom before s = flat_map lowerPoint s.
Proof.
  intros Hp. revert before.
  induction Hp as [|c s [Hc _] _ IH]; intros before; [reflexivity|].
  cbn [lowerFrom flat_map]. rewrite IH.
  apply N.eqb_neq in Hc. rewrite Hc. reflexivity.
Qed.

Lemma flat_map_lowerUnits (s : list N) :
  flat_map codeUnits (flat_map lowerPoint s) = flat_map lowerUnits s.
Proof.
  induction s as [|c s IH]; [reflexivity|].
  cbn [flat_map]. rewrite flat_map_app, IH. reflexivity.
Qed.

Lemma toLowerCase_plain (t : jsstring) :
  plain t -> toLowerCase t = flat_map lowerUnits t.
Proof.
  intros Hp. unfold toLowerCase.
  rewrite <- (app_nil_r t) at 1.
  rewrite codePoints_plain_app by exact Hp.
  cbn [codePoints]. rewrite app_nil_r, lowerFrom_plain by exact Hp.
  apply flat_map_lowerUnits.
Qed.

(** Inside any text, a plain part is lower-cased on its own. *)
Lemma toLowerCase_part (pre part post : jsstring) :
  plain part ->
  exists before after,
    toLowerCase (pre ++ part ++ post)
    = before ++ flat_map lowerUnits part ++ after.
Proof.
  intros Hp. destruct part as [|x part].
  - exists (toLowerCase (pre ++ post)), []. simpl. rewrite app_nil_r.
    reflexivity.
  - unfold toLowerCase. cbn [app].
    assert (Hx : isLowSurrogate x = false).
    { inversion Hp as [|? ? [_ Hx] _]; subst.
      apply (not_surrogate x Hx). }
    rewrite (codePoints_cut x (part ++ post) Hx (length pre) pre)
      by reflexivity.
    change (x :: part ++ post) with ((x :: part) ++ post).
    rewrite codePoints_plain_app by exact Hp.
    destruct (lowerFrom_skip (codePoints pre)
                             ((x :: part) ++ codePoints post) [])
      as [done ->].
    rewrite (lowerFrom_plain_app _ _ _ Hp), !flat_map_app.
    rewrite flat_map_lowerUnits.
    eexists. eexists. reflexivity.
Qed.

(** Below 128 lower-casing folds the letters A-Z and nothing else. *)
Lemma lowerUnits_ascii (c : N) :
  (c < 128)%N -> lowerUnits c = [lower_unit c].
Proof.
  intros Hc.
  assert (Hall : forallb
                   (fun n => str_eqb (lowerUnits (N.of_nat n))
                                     [lower_unit (N.of_nat n)])
                   (seq 0 128) = true) by (vm_compute; reflexivity).
  rewrite forallb_forall in Hall.
  specialize (Hall (N.to_nat c)). rewrite N2Nat.id in Hall.
  apply str_eqb_eq. apply Hall. apply in_seq. lia.
Qed.

Lemma lower_unit_same (x y : N) :
  lower_unit x = lower_unit y <-> sameLetter x y.
Proof.
  unfold lower_unit, sameLetter.
  destruct (65 <=? x)%N eqn:H1; destruct (x <=? 90)%N eqn:H2;
    destruct (65 <=? y)%N eqn:H3; destruct (y <=? 90)%N eqn:H4; simpl;
    rewrite ?N.leb_le, ?N.leb_gt in *; lia.
Qed.

Lemma sameLetter_lowerUnits (x y : N) :
  sameLetter x y -> lowerUnits x = lowerUnits y.
Proof.
  intros H. destruct (N.eq_dec x y) as [->|Hne]; [reflexivity|].
  assert (Hx : (x < 128)%N) by (unfold sameLetter in H; lia).
  assert (Hy : (y < 128)%N) by (unfold sameLetter in H; lia).
  rewrite !lowerUnits_ascii by assumption.
  f_equal. apply lower_unit_same. exact H.
Qed.

Lemma sameIgnoringCase_lowerUnits (s t : jsstring) :
  sameIgnoringCase s t -> flat_map lowerUnits s = flat_map lowerUnits t.
Proof.
  intros H. induction H as [|x y s t Hxy _ IH]; [reflexivity|].
  cbn [flat_map]. rewrite IH, (sameLetter_lowerUnits x y Hxy). reflexivity.
Qed.

Lemma sameIgnoringCase_plain (s t : jsstring) :
  sameIgnoringCase s t -> plain t -> plain s.
Proof.
  intros H. induction H as [|x y s t Hxy _ IH]; intros Hp; [constructor|].
  inversion Hp as [|? ? Hy Ht]; subst.
  constructor; [|apply IH; exact Ht].
  unfold sameLetter in Hxy. lia.
Qed.

(** Letter case is ignored: a part equal to the search text up to the case
    of the letters A-Z is found. *)
Lemma contains_found (t s : jsstring) :
  plain t -> ContainsIgnoringCase t s -> SubstringNoCase t s.
Proof.
  intros Hp (pre & part & post & -> & Hsame).
  unfold SubstringNoCase, Substring.
  destruct (toLowerCase_part pre part post
              (sameIgnoringCase_plain _ _ Hsame Hp))
    as (before & after & ->).
  rewrite (toLowerCase_plain t Hp).
  rewrite (sameIgnoringCase_lowerUnits _ _ Hsame).
  exists before, after. reflexivity.
Qed.

Lemma asciiOnly_plain (s : jsstring) : asciiOnly s -> plain s.
Proof.
  intros H. induction H as [|c s Hc _ IH]; constructor; [lia | exact IH].
Qed.

Lemma toLowerCase_ascii (s : jsstring) :
  asciiOnly s -> toLowerCase s = map lower_unit s.
Proof.
  intros H. rewrite (toLowerCase_plain s (asciiOnly_plain s H)).
  induction H as [|c s Hc _ IH]; [reflexivity|].
  cbn [flat_map map]. rewrite IH, (lowerUnits_ascii c Hc). reflexivity.
Qed.

Lemma map_lower_unit_same (s t : jsstring) :
  map lower_unit s = map lower_unit t -> sameIgnoringCase s t.
Proof.
  revert t. induction s as [|x s IH]; intros [|y t] H;
    try discriminate; [constructor|].
  inversion H. constructor; [apply lower_unit_same; assumption|].
  apply IH. assumption.
Qed.

(** On ASCII text nothing but letter case is ignored. *)
Lemma found_contains (t s : jsstring) :
  asciiOnly t -> asciiOnly s -> SubstringNoCase t s ->
  ContainsIgnoringCase t s.
Proof.
  intros Ht Hs (before & after & H).
  rewrite (toLowerCase_ascii s Hs), (toLowerCase_ascii t Ht) in H.
  apply map_eq_app in H. destruct H as (pre & rest & -> & _ & H).
  apply map_eq_app in H. destruct H as (part & post & -> & Hpart & _).
  exists pre, part, post. split; [reflexivity|].
  apply map_lower_unit_same. exact Hpart.
Qed.

(** For every buffer and every criteria the projection keeps, in buffer
    order, exactly the records that meet all three criteria: level equal to
    the level filter or the filter "all", agent equal to the agent filter or
    the filter "all", and the search text empty or, both sides lower-cased,
    a substring of the message or of the agent.  Lower-casing ignores
    letter case: for a search text without the capital sigma and without
    surrogates, a record that meets the first two criteria and has, in its
    message or agent, a part equal to the search text up to the case of the
    letters A-Z is kept.  On ASCII text it ignores nothing else: a record
    kept for a non-empty search text has such a part. *)
Theorem filter_keeps_exactly_matching
        (levelFilter agentFilter searchText : jsstring)
        (buffer : list Unified.ActivityLog) :
  Projection (passes levelFilter agentFilter searchText) buffer
             (Unified.filteredActivities levelFilter agentFilter searchText
                                         buffer)
  /\ (forall r,
      In r (Unified.filteredActivities levelFilter agentFilter searchText
                                       buffer)
      <-> In r buffer /\ passes levelFilter agentFilter searchText r)
  /\ (plain searchText ->
      forall r,
        In r buffer ->
        (levelFilter = js "all" \/ Unified.level r = Some levelFilter) ->
        (agentFilter = js "all" \/ Unified.agent r = Some agentFilter) ->
        (ContainsIgnoringCase searchText (Unified.message r)
         \/ exists a, Unified.agent r = Some a
                      /\ ContainsIgnoringCase searchText a) ->
        In r (Unified.filteredActivities levelFilter agentFilter searchText
                                         buffer))
  /\ (searchText <> [] -> asciiOnly searchText ->
      forall r,
        In r (Unified.filteredActivities levelFilter agentFilter searchText
                                         buffer) ->
        asciiOnly (Unified.message r) ->
        (forall a, Unified.agent r = Some a -> asciiOnly a) ->
        ContainsIgnoringCase searchText (Unified.message r)
        \/ exists a, Unified.agent r = Some a
                     /\ ContainsIgnoringCase searchText a).
Proof.
  assert (Hdec : forall r : Unified.ActivityLog,
             (str_eqb levelFilter (js "all")
              || opt_is (Unified.level r) levelFilter)
             && (str_eqb agentFilter (js "all")
                 || opt_is (Unified.agent r) agentFilter)
             && (str_eqb searchText []
                 || includes (toLowerCase (Unified.message r))
                             (toLowerCase searchText)
                 || match Unified.agent r with
                    | Some a =>
                      includes (toLowerCase a) (toLowerCase searchText)
                    | None => false
                    end) = true
             <-> passes levelFilter agentFilter searchText r).
  { intros r. unfold passes.
    rewrite !andb_true_iff, !orb_true_iff, !str_eqb_eq, !opt_is_eq.
    rewrite includes_Substring, agent_search_iff.
    unfold SubstringNoCase. tauto. }
  assert (Hin : forall r,
             In r (Unified.filteredActivities levelFilter agentFilter
                                              searchText buffer)
             <-> In r buffer /\ passes levelFilter agentFilter searchText r).
  { intros r. apply filter_In_iff. exact Hdec. }
  split; [apply filter_Projection; exact Hdec|].
  split; [exact Hin|]. split.
  - intros Hplain r Hr Hlevel Hagent Hfound. apply Hin.
    split; [exact Hr|]. unfold passes.
    split; [exact Hlevel|]. split; [exact Hagent|]. right.
    destruct Hfound as [Hm | (a & Ha & Hfound)].
    + left. apply contains_found; assumption.
    + right. exists a. split; [exact Ha|]. apply contains_found; assumption.
  - intros Hne Hascii r Hr Hmsg Hagent. apply Hin in Hr.
    destruct Hr as (_ & _ & _ & [Hempty | [Hm | (a & Ha & Hfound)]]).
    + contradiction.
    + left. apply found_contains; assumption.
    + right. exists a. split; [exact Ha|].
      apply found_contains; [exact Hascii | apply Hagent; exact Ha
                             | exact Hfound].
Qed.

(** C9.  The search compares the lower-cased text of both sides, and the
    lower case of the capital sigma depends on where it stands: at the end
    of the message "ΟΔΟΣ" it is the final sigma, in the search text "Σ" it
    is not.  The record whose message is "ΟΔΟΣ" contains the search text
    "Σ" as it stands, meets the two other criteria, and is dropped by the
    projection; searched by its whole message it is kept. *)
Theorem final_sigma_hides_literal_match :
  let buffer :=
    Unified.activities
      (Unified.step Unified.defaultMaxLogs env0
                    (Unified.Receive (textEvent "ΟΔΟΣ")) Unified.initial) in
  map Unified.message buffer = [js "ΟΔΟΣ"]
  /\ js "ΟΔΟΣ" = js "ΟΔΟ" ++ js "Σ" ++ []
  /\ toLowerCase (js "ΟΔΟΣ") = js "οδος"
  /\ toLowerCase (js "Σ") = js "σ"
  /\ Unified.filteredActivities (js "all") (js "all") (js "Σ") buffer = []
  /\ Unified.filteredActivities (js "all") (js "all") (js "ΟΔΟΣ") buffer
     = buffer
  /\ (forall r, In r buffer ->
                Substring (js "Σ") (Unified.message r)
                /\ ~ passes (js "all") (js "all") (js "Σ") r).
Proof.
  intros buffer.
  do 6 (split; [vm_compute; reflexivity|]).
  intros r Hr. vm_compute in Hr. destruct Hr as [<- | []]. split.
  - exists (js "ΟΔΟ"), []. vm_compute. reflexivity.
  - intros (_ & _ & [H | [H | (a & Ha & H)]]).
    + vm_compute in H. discriminate H.
    + apply includes_Substring in H. vm_compute in H. discriminate H.
    + vm_compute in Ha. inversion Ha; subst a.
      apply includes_Substring in H. vm_compute in H. discriminate H.
Qed.

(** The same search in ordinary text: letter case is ignored, also beyond
    ASCII. *)
Lemma filter_ignores_letter_case :
  let buffer :=
    Unified.activities
      (Unified.run Unified.defaultMaxLogs
         [(env0, Unified.Receive (textEvent "RÉSUMÉ parsed"));
          (env0, Unified.Receive (textEvent "Bias score computed"))]
         Unified.initial) in
  map Unified.message
      (Unified.filteredActivities (js "all") (js "all") (js "résumé") buffer)
  = [js "RÉSUMÉ parsed"]
  /\ map Unified.message
         (Unified.filteredActivities (js "all") (js "all") (js "SCORE")
                                     buffer)
     = [js "Bias score computed"].
Proof. vm_compute. split; reflexivity. Qed.

(** The enhanced monitor filters on agent and search text in the same
    way. *)
Lemma enhanced_filter_keeps_exactly_matching
      (searchText agentFilter : jsstring) (logs : list Enhanced.AgentLog) :
  Projection (passesEnhanced agentFilter searchText) logs
             (Enhanced.filteredLogs searchText agentFilter logs).
Proof.
  apply filter_Projection. intros r. unfold passesEnhanced.
  rewrite !andb_true_iff, !orb_true_iff, !str_eqb_eq, !includes_Substring.
  unfold SubstringNoCase. tauto.
Qed.

(** Two records, one by the privacy agent about a score: the filter on
    that agent and the text "score" keeps that one only. *)
Lemma filter_privacy_score_example :
  let s :=
    Unified.run Unified.defaultMaxLogs
      [(env0, Unified.Receive
                {| msg_type := Some (js "generation_update");
                   msg_data :=
                     Some {| ld_message := Some (js "Privacy Score: 95%");
                             ld_agent := Some (js "Privacy Agent");
                             ld_step := None; ld_progress := None;
                             ld_status := None; ld_level := None;
                             ld_type := None; ld_details := None;
                             ld_emoji := None |} |});
       (env0, Unified.Receive (textEvent "Bias score computed"))]
      Unified.initial in
  map Unified.message (Unified.activities s)
  = [js "Bias score computed"; js "Privacy Score: 95%"]
  /\ map Unified.message
         (Unified.filteredActivities (js "all") (js "Privacy Agent")
                                     (js "score") (Unified.activities s))
     = [js "Privacy Score: 95%"].
Proof. vm_compute. split; reflexivity. Qed.

(* ===================================================================== *)
(** ** The rendered list                                                   *)
(* ===================================================================== *)

(** C10.  The rows of the unified monitor are a prefix of the filtered
    projection of at most 50 records, the first 50 in the open view; every
    filtered record is a record of the buffer, and no row exists at index 50
    or beyond. *)
Theorem rendered_at_most_first_50 (compact isCollapsed : bool)
        (levelFilter agentFilter searchText : jsstring)
        (buffer : list Unified.ActivityLog) :
  let filtered :=
    Unified.filteredActivities levelFilter agentFilter searchText buffer in
  let shown := Unified.renderedActivities compact isCollapsed filtered in
  (length shown <= 50)%nat
  /\ (exists rest, filtered = shown ++ rest)
  /\ Unified.renderedActivities false false filtered = firstn 50 filtered
  /\ (forall r, In r filtered -> In r buffer)
  /\ (forall i, (50 <= i)%nat -> nth_error shown i = None).
Proof.
  intros filtered shown.
  assert (Hopen : Unified.renderedActivities false false filtered
                  = firstn 50 filtered).
  { unfold Unified.renderedActivities.
    destruct filtered as [|x l] eqn:Hf; [reflexivity|].
    rewrite slice_0_firstn by lia. reflexivity. }
  assert (Hshown : shown = [] \/ shown = firstn 50 filtered).
  { subst shown. destruct compact; [left; reflexivity|].
    destruct isCollapsed; [left; reflexivity|]. right. exact Hopen. }
  assert (Hlen : (length shown <= 50)%nat).
  { destruct Hshown as [-> | ->]; [simpl; lia|].
    rewrite length_firstn. lia. }
  split; [exact Hlen|]. split; [|split; [exact Hopen|split]].
  - destruct Hshown as [-> | ->].
    + exists filtered. reflexivity.
    + exists (skipn 50 filtered). symmetry. apply firstn_skipn.
  - intros r Hr. subst filtered. unfold Unified.filteredActivities in Hr.
    apply filter_In in Hr. tauto.
  - intros i Hi. apply nth_error_None. lia.
Qed.

(** Sixty accepted events under the default capacity 100: all sixty are
    buffered and pass the open filter, fifty are rendered. *)
Lemma sixty_buffered_fifty_rendered :
  let s :=
    Unified.run Unified.defaultMaxLogs
      (repeat (env0, Unified.Receive (progressEvent 40 "Generating rows")) 60)
      Unified.initial in
  let filtered :=
    Unified.filteredActivities (js "all") (js "all") [] (Unified.activities s)
  in
  length (Unified.activities s) = 60%nat
  /\ length filtered = 60%nat
  /\ length (Unified.renderedActivities false false filtered) = 50%nat.
Proof. vm_compute. repeat split. Qed.

Lemma rendered_at_most_first_50_witness :
  let buffer :=
    Unified.activities
      (Unified.run Unified.defaultMaxLogs
         (repeat (env0,
                  Unified.Receive (progressEvent 40 "Generating rows")) 60)
         Unified.initial) in
  (50 <= 55)%nat
  /\ nth_error
       (Unified.renderedActivities false false
          (Unified.filteredActivities (js "all") (js "all") [] buffer)) 55
     = None.
Proof.
  split; [lia|].
  apply (proj2 (proj2 (proj2 (proj2
           (rendered_at_most_first_50 false false (js "all") (js "all") []
              (Unified.activities
                 (Unified.run Unified.defaultMaxLogs
                    (repeat (env0,
                             Unified.Receive
                               (progressEvent 40 "Generating rows")) 60)
                    Unified.initial))))))).
  lia.
Defined.
